(** * WallProjections: hotspot press detection and calibration

    A shallow embedding of [Scripts/Hotspot.py] and [Scripts/main.py].

    Python floats are idealised as exact rationals ([Q]); Python ints are
    [Z].  The wall clock [time.time()] is an effect: every call consumes one
    reading of an explicit clock, so a method that reads the clock several
    times may see several different values. *)

From Stdlib Require Import QArith Qminmax Lqa ZArith List Bool Arith Lia.
Import ListNotations.

Local Open Scope Q_scope.

(** ** The clock *)

Record Clock := { readings : nat -> Q; reads : nat }.

(** Computations that may read the clock. *)
Definition Timed (A : Type) : Type := Clock -> A * Clock.

Definition ret {A : Type} (a : A) : Timed A := fun c => (a, c).

Definition bind {A B : Type} (m : Timed A) (k : A -> Timed B) : Timed B :=
  fun c => let (a, c') := m c in k a c'.

Notation "x <- m ;; k" := (bind m (fun x => k))
  (at level 61, m at next level, right associativity).

(** [time.time()] *)
Definition time_time : Timed Q :=
  fun c => (readings c (reads c),
            {| readings := readings c; reads := S (reads c) |}).

(** A clock that shows [now] however often it is read. *)
Definition at_time (now : Q) : Clock :=
  {| readings := fun _ => now; reads := 0 |}.

(** ** main.py: configuration *)

(** [BUTTON_COOLDOWN: float = 1.5] *)
Definition BUTTON_COOLDOWN : Q := 3 # 2.

(** ** class _Button *)

Record _Button := {
  finger_is_over : bool;
  prev_time : Q;
  prev_pressed_amount : Q
}.

(** [_Button.__init__] *)
Definition _Button__init__ : Timed _Button :=
  now <- time_time ;;
  ret {| finger_is_over := false; prev_time := now; prev_pressed_amount := 0 |}.

(** [_Button.get_pressed_amount].  Python's [min(1.0, x)] is [x] when
    [x < 1.0] and [1.0] otherwise, which is [Qmin 1 x]; [max(0.0, x)] is [x]
    when [x > 0.0] and [0.0] otherwise, which is [Qmax 0 x]. *)
Definition get_pressed_amount (self : _Button) : Timed Q :=
  now <- time_time ;;
  let time_since_last_change := now - prev_time self in
  if finger_is_over self
  then ret (Qmin 1 (prev_pressed_amount self + time_since_last_change / BUTTON_COOLDOWN))
  else ret (Qmax 0 (prev_pressed_amount self - time_since_last_change / BUTTON_COOLDOWN)).

(** [_Button.press]: the object after the call is returned next to the
    result. *)
Definition press (self : _Button) : Timed (bool * _Button) :=
  self' <- (if negb (finger_is_over self)
            then amount <- get_pressed_amount self ;;
                 now <- time_time ;;
                 ret {| finger_is_over := true;
                        prev_time := now;
                        prev_pressed_amount := amount |}
            else ret self) ;;
  amount <- get_pressed_amount self' ;;
  ret (Qeq_bool amount 1, self').

(** [_Button.un_press] *)
Definition un_press (self : _Button) : Timed _Button :=
  if finger_is_over self
  then amount <- get_pressed_amount self ;;
       now <- time_time ;;
       ret {| finger_is_over := false;
              prev_time := now;
              prev_pressed_amount := amount |}
  else ret self.

(** ** The press state as the specification words it *)

(** [value(now)]: the two formulas of the specification, [COOLDOWN] being the
    configured [BUTTON_COOLDOWN]. *)
Definition PressState_value (s : _Button) (now : Q) : Q :=
  if finger_is_over s
  then Qmin 1 (prev_pressed_amount s + (now - prev_time s) / BUTTON_COOLDOWN)
  else Qmax 0 (prev_pressed_amount s - (now - prev_time s) / BUTTON_COOLDOWN).

(** The pressed amount read at the time [now]. *)
Definition value_at (now : Q) (self : _Button) : Q :=
  fst (get_pressed_amount self (at_time now)).

(** The range the data model gives [valueAtTransition]. *)
Definition in_unit_range (self : _Button) : Prop :=
  0 <= prev_pressed_amount self /\ prev_pressed_amount self <= 1.

(** ** class Hotspot

    The fields are those of [Hotspot.py], which [_is_point_inside] reads in
    both files and which [run] passes to the constructor
    ([Hotspot(0, 0.5, 0.5, event_listener)]).  [main.py] keeps the position
    as [_proj_pos]/[_cam_pos] instead of [_x]/[_y]; the other fields and
    every method below are the same in both files. *)

Record Point := { x : Q; y : Q }.

(** A reference to the listener object. *)
Definition EventListener : Type := nat.

Record Hotspot := {
  id : Z;
  _x : Q;
  _y : Q;
  _radius : Q;
  _event_listener : EventListener;
  _button : _Button;
  _is_activated : bool;
  _time_activated : Q
}.

(** [Hotspot.__init__]; [radius] defaults to [0.03] at the call sites. *)
Definition Hotspot__init__ (hotspot_id : Z) (x0 y0 : Q)
    (event_listener : EventListener) (radius : Q) : Timed Hotspot :=
  b <- _Button__init__ ;;
  ret {| id := hotspot_id; _x := x0; _y := y0; _radius := radius;
         _event_listener := event_listener; _button := b;
         _is_activated := false; _time_activated := 0 |}.

Definition default_radius : Q := 3 # 100.

(** Assignment to one attribute. *)
Definition set_button (self : Hotspot) (b : _Button) : Hotspot :=
  {| id := id self; _x := _x self; _y := _y self; _radius := _radius self;
     _event_listener := _event_listener self; _button := b;
     _is_activated := _is_activated self;
     _time_activated := _time_activated self |}.

Definition set_is_activated (self : Hotspot) (v : bool) : Hotspot :=
  {| id := id self; _x := _x self; _y := _y self; _radius := _radius self;
     _event_listener := _event_listener self; _button := _button self;
     _is_activated := v;
     _time_activated := _time_activated self |}.

Definition set_time_activated (self : Hotspot) (t : Q) : Hotspot :=
  {| id := id self; _x := _x self; _y := _y self; _radius := _radius self;
     _event_listener := _event_listener self; _button := _button self;
     _is_activated := _is_activated self;
     _time_activated := t |}.

(** [Hotspot._is_point_inside] *)
Definition _is_point_inside (self : Hotspot) (point : Point) : bool :=
  let squared_dist := (_x self - x point) ^ 2 + (_y self - y point) ^ 2 in
  Qle_bool squared_dist (_radius self ^ 2).

(** [Hotspot.activate] *)
Definition activate (self : Hotspot) : Timed Hotspot :=
  now <- time_time ;;
  ret (set_is_activated (set_time_activated self now) true).

(** [Hotspot.deactivate] *)
Definition deactivate (self : Hotspot) : Hotspot :=
  set_is_activated self false.

(** The loop of [update] that looks for a fingertip inside the hotspot. *)
Definition finger_inside (self : Hotspot) (points : list Point) : bool :=
  fold_left (fun inside point =>
               if _is_point_inside self point then true else inside)
            points false.

(** [Hotspot.update]: the result and the object after the call. *)
Definition update (self : Hotspot) (points : list Point)
    : Timed (bool * Hotspot) :=
  if _is_activated self then ret (false, self)
  else if finger_inside self points
  then r <- press (_button self) ;;
       let self1 := set_button self (snd r) in
       if fst r
       then self2 <- activate self1 ;; ret (true, self2)
       else ret (false, self1)
  else b <- un_press (_button self) ;;
       ret (false, set_button self b).

(** What [Hotspot.draw] does to the clock: it reads the pressed amount, and
    for a non-zero amount [_inner_radius] reads it again, and the time once
    more when the hotspot is activated.  The drawing itself is outside the
    model. *)
Definition draw (self : Hotspot) : Timed unit :=
  amount <- get_pressed_amount (_button self) ;;
  if negb (Qeq_bool amount 0)
  then _ <- get_pressed_amount (_button self) ;;
       if _is_activated self then _ <- time_time ;; ret tt else ret tt
  else ret tt.

(** ** The frame loop of [run]

    Hotspots are objects: the store maps an object's identity to its state,
    and the list [hotspots] holds identities, so one object may be listed
    twice and [other_hotspot == hotspot] compares identities. *)

Definition ref : Type := nat.

Definition Store : Type := ref -> Hotspot.

Definition store_set (s : Store) (r : ref) (h : Hotspot) : Store :=
  fun r' => if Nat.eqb r' r then h else s r'.

Record World := {
  heap : Store;
  clock : Clock;
  OnPressDetected : list Z   (* the calls received by the listener, oldest first *)
}.

(** The inner loop: [other_hotspot.deactivate()] for every entry that is not
    [hotspot] itself. *)
Definition deactivate_others (hotspots : list ref) (hotspot : ref) (s : Store)
    : Store :=
  fold_left (fun s other_hotspot =>
               if Nat.eqb other_hotspot hotspot then s
               else store_set s other_hotspot (deactivate (s other_hotspot)))
            hotspots s.

(** The body of [for hotspot in hotspots]. *)
Definition arbiter_body (hotspots : list ref) (points : list Point)
    (w : World) (hotspot : ref) : World :=
  let '(hotspot_just_activated, self', c') :=
    update (heap w hotspot) points (clock w) in
  let s := store_set (heap w) hotspot self' in
  if hotspot_just_activated
  then {| heap := deactivate_others hotspots hotspot s;
          clock := c';
          OnPressDetected := OnPressDetected w ++ [id self'] |}
  else {| heap := s; clock := c'; OnPressDetected := OnPressDetected w |}.

(** The loop over the hotspots still to visit; the whole pass is
    [arbiter_loop hotspots points hotspots]. *)
Definition arbiter_loop (hotspots : list ref) (points : list Point)
    (todo : list ref) (w : World) : World :=
  fold_left (arbiter_body hotspots points) todo w.

Definition arbiter_pass (hotspots : list ref) (points : list Point)
    (w : World) : World :=
  arbiter_loop hotspots points hotspots w.

(** The hotspots whose [update] returns [True] during the loop, in the order
    they do. *)
Fixpoint just_activated (hotspots : list ref) (points : list Point)
    (todo : list ref) (w : World) : list ref :=
  match todo with
  | [] => []
  | hotspot :: rest =>
      (if fst (fst (update (heap w hotspot) points (clock w)))
       then [hotspot] else [])
      ++ just_activated hotspots points rest
           (arbiter_body hotspots points w hotspot)
  end.

(** [media_finished] *)
Definition media_finished (hotspots : list ref) (w : World) : World :=
  {| heap := fold_left (fun s hotspot => store_set s hotspot (deactivate (s hotspot)))
                       hotspots (heap w);
     clock := clock w;
     OnPressDetected := OnPressDetected w |}.

(** [for hotspot in hotspots: hotspot.draw(image)] *)
Definition draw_all (hotspots : list ref) (w : World) : World :=
  {| heap := heap w;
     clock := fold_left (fun c hotspot => snd (draw (heap w hotspot) c))
                        hotspots (clock w);
     OnPressDetected := OnPressDetected w |}.

Inductive key : Type := key_c | key_q | key_other.

(** One turn of [while video_capture.isOpened()]: a failed read, or a frame
    with the fingertips of the detected hands ([None] when the model reports
    no hands) and the key pressed. *)
Inductive iteration : Type :=
| unsuccessful_read
| frame (fingertip_coords : option (list Point)) (pressed : key).

Definition run_iteration (hotspots : list ref) (w : World) (it : iteration)
    : World :=
  match it with
  | unsuccessful_read => w
  | frame fingertip_coords pressed =>
      let w1 := match fingertip_coords with
                | Some points => arbiter_pass hotspots points w
                | None => w
                end in
      let w2 := draw_all hotspots w1 in
      match pressed with
      | key_c => media_finished hotspots w2
      | _ => w2
      end
  end.

(** The loop, until [q] is pressed or the frames end. *)
Fixpoint run_loop (hotspots : list ref) (its : list iteration) (w : World)
    : World :=
  match its with
  | [] => w
  | it :: rest =>
      let w' := run_iteration hotspots w it in
      match it with
      | frame _ key_q => w'
      | _ => run_loop hotspots rest w'
      end
  end.

(** The hotspots [run] creates:
    [[Hotspot(0, 0.5, 0.5, event_listener), Hotspot(1, 0.8, 0.8, event_listener)]]. *)
Definition run_hotspots : list ref := [0%nat; 1%nat].

Definition run_setup (event_listener : EventListener) (c : Clock) : World :=
  let (h0, c0) := Hotspot__init__ 0 (1 # 2) (1 # 2) event_listener default_radius c in
  let (h1, c1) := Hotspot__init__ 1 (4 # 5) (4 # 5) event_listener default_radius c0 in
  {| heap := fun r => if Nat.eqb r 0 then h0 else h1;
     clock := c1;
     OnPressDetected := [] |}.

(** The listed hotspots that are activated, each object counted once. *)
Definition activated_hotspots (hotspots : list ref) (s : Store) : list ref :=
  filter (fun r => _is_activated (s r)) (nodup Nat.eq_dec hotspots).

(** ** Calibration *)

(** A Python [dict] with integer keys: the entries in insertion order, each
    key once. *)
Definition dict (V : Type) : Type := list (Z * V).

Fixpoint dict_get {V : Type} (d : dict V) (k : Z) : option V :=
  match d with
  | [] => None
  | (k', v) :: d' => if Z.eqb k' k then Some v else dict_get d' k
  end.

(** [k in d] *)
Definition dict_mem {V : Type} (d : dict V) (k : Z) : bool :=
  match dict_get d k with Some _ => true | None => false end.

(** [d[k] = v]: a present key keeps its place, a new key goes last. *)
Fixpoint dict_set {V : Type} (d : dict V) (k : Z) (v : V) : dict V :=
  match d with
  | [] => [(k, v)]
  | (k', v') :: d' =>
      if Z.eqb k' k then (k', v) :: d' else (k', v') :: dict_set d' k v
  end.

(** [range(n)] *)
Definition range (n : nat) : list Z := map Z.of_nat (seq 0 n).

(** The loops that fill [projectedCoords] in [Calibrator.calibrate] (and in
    [takePhoto]), with the four literals of the source as parameters:
    [rows] and [cols] are the bounds of the outer and the inner [range],
    [spacing] the factor and [offset] the summand of both coordinates. *)
Definition marker_grid (rows cols : nat) (spacing offset : Z)
    : dict (Z * Z) :=
  fst (fold_left
         (fun st i =>
            fold_left
              (fun st j =>
                 let '(projectedCoords, code) := st in
                 (dict_set projectedCoords code
                           (offset + spacing * i, offset + spacing * j)%Z,
                  (code + 1)%Z))
              (range cols) st)
         (range rows) ([], 0%Z)).

(** [projectedCoords] as the source fills it:
    [for i in range(6): for j in range(12): ... (25+(150*i), 25+(150*j))]. *)
Definition projectedCoords : dict (Z * Z) := marker_grid 6 12 150 25.

(** Modelled from the spec: the typed calibration errors of section 7.  The
    source defines no exception class and raises none of them. *)
Inductive CalibrationError : Type :=
| InsufficientCorrespondences
| DegenerateCorrespondences
| NotCalibrated.

(** What a call can raise: one of the typed errors above, or the untyped
    [cv2.error] of the OpenCV binding. *)
Inductive exception : Type :=
| CalibrationFailure (e : CalibrationError)
| cv2_error.

(** How a call ends. *)
Inductive outcome (A : Type) : Type :=
| Returns (a : A)
| Raises (e : exception).
Arguments Returns {A} a.
Arguments Raises {A} e.

(** How a call into OpenCV ends: with a value, or with [cv2.error]. *)
Inductive cv2_result (A : Type) : Type :=
| cv2_ok (a : A)
| cv2_fail.
Arguments cv2_ok {A} a.
Arguments cv2_fail {A}.

Definition from_cv2 {A : Type} (r : cv2_result A) : outcome A :=
  match r with cv2_ok a => Returns a | cv2_fail => Raises cv2_error end.

Definition Coord : Type := (Q * Q)%type.

(** [np.array(..., dtype=np.float32)] on a pair of ints. *)
Definition float32 (p : Z * Z) : Coord := (inject_Z (fst p), inject_Z (snd p)).

(** [projectedCoords] as the arrays built from it hold it. *)
Definition projected_float32 : dict Coord :=
  map (fun entry => (fst entry, float32 (snd entry))) projectedCoords.

Section Calibrator.

(** The matrices of OpenCV and the two functions used; the first component
    of [cv2.findHomography]'s result is the matrix, or [None]. *)
Variable Matrix : Type.
Variable identity : Matrix.
Variable findHomography : list Coord -> list Coord -> cv2_result (option Matrix).
(** [cv2.perspectiveTransform] on an array of one point, [[0][0]] taken. *)
Variable perspectiveTransform : Coord -> option Matrix -> cv2_result Coord.

Record Calibrator := {
  _screenWidth : Z;
  _screenHeight : Z;
  _cameraWidth : option Z;
  _cameraHeight : option Z;
  _tMatrix : option Matrix;
  _inverseTMatrix : option Matrix
}.

(** [Calibrator.__init__] *)
Definition Calibrator__init__ (screenDimensions : Z * Z) : Calibrator :=
  {| _screenWidth := fst screenDimensions;
     _screenHeight := snd screenDimensions;
     _cameraWidth := None; _cameraHeight := None;
     _tMatrix := None; _inverseTMatrix := None |}.

(** [Calibrator.skipCalibration] *)
Definition skipCalibration (self : Calibrator) : Calibrator :=
  {| _screenWidth := _screenWidth self;
     _screenHeight := _screenHeight self;
     _cameraWidth := _cameraWidth self;
     _cameraHeight := _cameraHeight self;
     _tMatrix := Some identity; _inverseTMatrix := Some identity |}.

(** The first loop of [_getTransformationMatrix]: the coordinates of the
    ids present in both dictionaries, in the order of [fromCoords]. *)
Definition matching (fromCoords toCoords : dict Coord)
    : list Coord * list Coord :=
  fold_left
    (fun arrays entry =>
       let '(fromArray, toArray) := arrays in
       let '(iD, fromCoord) := entry in
       match dict_get toCoords iD with
       | Some toCoord => (fromArray ++ [fromCoord], toArray ++ [toCoord])
       | None => arrays
       end)
    fromCoords ([], []).

(** [Calibrator._getTransformationMatrix]: a bare [return] gives [None]. *)
Definition _getTransformationMatrix (fromCoords toCoords : dict Coord)
    : outcome (option Matrix) :=
  let '(fromArray, toArray) := matching fromCoords toCoords in
  if (length fromArray <? 4)%nat
  then Returns None
  else from_cv2 (findHomography fromArray toArray).

(** [Calibrator.calibrate] from the photo's shape and the markers detected
    in it (the results of [takePhoto] and [_detectArucos]). *)
Definition calibrate (self : Calibrator) (photo_shape : Z * Z)
    (cameraCoords : dict Coord) : outcome Calibrator :=
  match _getTransformationMatrix projected_float32 cameraCoords with
  | Raises e => Raises e
  | Returns tMatrix =>
      match _getTransformationMatrix cameraCoords projected_float32 with
      | Raises e => Raises e
      | Returns inverseTMatrix =>
          Returns {| _screenWidth := _screenWidth self;
                     _screenHeight := _screenHeight self;
                     _cameraWidth := Some (fst photo_shape);
                     _cameraHeight := Some (snd photo_shape);
                     _tMatrix := tMatrix;
                     _inverseTMatrix := inverseTMatrix |}
      end
  end.

(** [Calibrator.transform]: no test of [_tMatrix] precedes the call into
    OpenCV; the two coordinates come back swapped. *)
Definition transform (self : Calibrator) (vector : Coord) : outcome Coord :=
  match perspectiveTransform vector (_tMatrix self) with
  | cv2_ok transformedVector =>
      Returns (snd transformedVector, fst transformedVector)
  | cv2_fail => Raises cv2_error
  end.

(** [Calibrator.inverseTransform] *)
Definition inverseTransform (self : Calibrator) (vector : Coord)
    : outcome Coord :=
  match perspectiveTransform vector (_inverseTMatrix self) with
  | cv2_ok transformedVector =>
      Returns (snd transformedVector, fst transformedVector)
  | cv2_fail => Raises cv2_error
  end.

End Calibrator.

Arguments _tMatrix {Matrix} c.
Arguments _inverseTMatrix {Matrix} c.
Arguments Calibrator__init__ {Matrix} screenDimensions.
Arguments skipCalibration {Matrix} identity self.
Arguments _getTransformationMatrix {Matrix} findHomography fromCoords toCoords.
Arguments calibrate {Matrix} findHomography self photo_shape cameraCoords.
Arguments transform {Matrix} perspectiveTransform self vector.
Arguments inverseTransform {Matrix} perspectiveTransform self vector.

(** *** OpenCV's projective transform on rational matrices *)

(** A 3x3 matrix, row by row. *)
Definition Matrix3 : Type := ((Q * Q * Q) * (Q * Q * Q) * (Q * Q * Q))%type.

Definition identity3 : Matrix3 := ((1, 0, 0), (0, 1, 0), (0, 0, 1)).

(** [(x', y', w') = M (x, y, 1)] and the result [(x'/w', y'/w')]; without a
    matrix the binding's size assertion fails and [cv2.error] is raised. *)
Definition perspectiveTransform3 (p : Coord) (m : option Matrix3)
    : cv2_result Coord :=
  match m with
  | None => cv2_fail
  | Some ((a, b, c), (d, e, f), (g, h, i)) =>
      let x' := a * fst p + b * snd p + c in
      let y' := d * fst p + e * snd p + f in
      let w' := g * fst p + h * snd p + i in
      cv2_ok (x' / w', y' / w')
  end.

(** At most one listed hotspot is activated. *)
Definition at_most_one_activated (hotspots : list ref) (s : Store) : Prop :=
  forall r1 r2,
    In r1 hotspots -> In r2 hotspots ->
    _is_activated (s r1) = true -> _is_activated (s r2) = true -> r1 = r2.

(** The number of entries of [fromCoords] whose id is also in [toCoords]:
    the size of the intersection of the two id sets. *)
Definition intersection_size {V W : Type} (fromCoords : dict V)
    (toCoords : dict W) : nat :=
  length (filter (fun entry => dict_mem toCoords (fst entry)) fromCoords).

(** ** Further parts of the source *)

(** A clock that never goes backwards. *)
Definition nondecreasing (c : Clock) : Prop :=
  forall n m, (n <= m)%nat -> readings c n <= readings c m.

(** One button over a run of frames: [true] is a frame that calls [press],
    [false] one that calls [un_press]. *)
Fixpoint drive (touches : list bool) (self : _Button) : Timed _Button :=
  match touches with
  | [] => ret self
  | true :: rest => r <- press self ;; drive rest (snd r)
  | false :: rest => b <- un_press self ;; drive rest b
  end.

(** The body of [for hotspot in hotspots] in [run2]: as in [run], without the
    call of the listener. *)
Definition arbiter_body2 (hotspots : list ref) (points : list Point)
    (w : World) (hotspot : ref) : World :=
  let '(hotspot_just_activated, self', c') :=
    update (heap w hotspot) points (clock w) in
  let s := store_set (heap w) hotspot self' in
  if hotspot_just_activated
  then {| heap := deactivate_others hotspots hotspot s;
          clock := c';
          OnPressDetected := OnPressDetected w |}
  else {| heap := s; clock := c'; OnPressDetected := OnPressDetected w |}.

Definition arbiter_pass2 (hotspots : list ref) (points : list Point)
    (w : World) : World :=
  fold_left (arbiter_body2 hotspots points) hotspots w.

(** One turn of the loop of [run2].  Its hotspots are the parameter
    [hotspots]; [media_finished] still walks the module-level list, here
    [global_hotspots]. *)
Definition run2_iteration (global_hotspots hotspots : list ref) (w : World)
    (it : iteration) : World :=
  match it with
  | unsuccessful_read => w
  | frame fingertip_coords pressed =>
      let w1 := match fingertip_coords with
                | Some points => arbiter_pass2 hotspots points w
                | None => w
                end in
      let w2 := draw_all hotspots w1 in
      match pressed with
      | key_c => media_finished global_hotspots w2
      | _ => w2
      end
  end.

Fixpoint run2_loop (global_hotspots hotspots : list ref)
    (its : list iteration) (w : World) : World :=
  match its with
  | [] => w
  | it :: rest =>
      let w' := run2_iteration global_hotspots hotspots w it in
      match it with
      | frame _ key_q => w'
      | _ => run2_loop global_hotspots hotspots rest w'
      end
  end.

(** [Calibrator._detectArucos] from what [aruco.detectMarkers] found: [None]
    when [ids is None], else every detected id with the top left corner
    detected for it, in the order of [ids]. *)
Definition _detectArucos (detected : option (list (Z * Coord))) : dict Coord :=
  match detected with
  | None => []
  | Some markers =>
      fold_left (fun detectedCoords marker =>
                   dict_set detectedCoords (fst marker) (snd marker))
                markers []
  end.

(** How [transform4Mediapipes] ends: as [transform] can, or with the
    [TypeError] of a division by [None]. *)
Inductive outcome4 (A : Type) : Type :=
| Returns4 (a : A)
| Raises4 (e : exception)
| TypeError.
Arguments Returns4 {A} a.
Arguments Raises4 {A} e.
Arguments TypeError {A}.

(** [Calibrator.transform4Mediapipes]; the sizes of a photo are positive,
    and the divisions are those of the rationals. *)
Definition transform4Mediapipes {Matrix : Type}
    (perspectiveTransform : Coord -> option Matrix -> cv2_result Coord)
    (self : Calibrator Matrix) (coords : Coord) : outcome4 Coord :=
  match transform perspectiveTransform self coords with
  | Raises e => Raises4 e
  | Returns cameraCoords =>
      match _cameraWidth Matrix self, _cameraHeight Matrix self with
      | Some cameraWidth, Some cameraHeight =>
          Returns4 (snd cameraCoords / inject_Z cameraHeight,
                    fst cameraCoords / inject_Z cameraWidth)
      | _, _ => TypeError
      end
  end.

(** The keys of a dictionary, in order. *)
Definition keys {V : Type} (d : dict V) : list Z := map fst d.

(** The clock after [k] more readings. *)
Definition advance (k : nat) (c : Clock) : Clock :=
  {| readings := readings c; reads := k + reads c |}.

(** A turn of the loop in which the model reports no hands and [c] is not
    pressed, or whose read fails. *)
Definition handless (it : iteration) : bool :=
  match it with
  | unsuccessful_read => true
  | frame None key_c => false
  | frame None _ => true
  | frame (Some _) _ => false
  end.

(** ** Sample states *)

(** A button charging since [t = 0], and one fully charged and released at
    [t = 0]. *)
Definition held : _Button :=
  {| finger_is_over := true; prev_time := 0; prev_pressed_amount := 0 |}.

Definition idle : _Button :=
  {| finger_is_over := false; prev_time := 0; prev_pressed_amount := 1 |}.

(** A clock that shows 0 for its first eight readings and 2 from then on. *)
Definition step_clock : Clock :=
  {| readings := fun n => if (n <? 8)%nat then 0 else 2; reads := 0 |}.

(** One fingertip on the centre of each of the two hotspots of [run]. *)
Definition both_touched : list Point :=
  [ {| x := 1 # 2; y := 1 # 2 |}; {| x := 4 # 5; y := 4 # 5 |} ].

(** The two hotspots of [run], created at [t = 0] (two readings) and touched
    in a first frame at [t = 0] (three readings each): every later reading is
    2, past the cooldown. *)
Definition both_charging : World :=
  arbiter_pass run_hotspots both_touched (run_setup 0%nat step_clock).

(** A hotspot activated at [t = 1]. *)
Definition lit : Hotspot :=
  {| id := 7; _x := 1 # 2; _y := 1 # 2; _radius := default_radius;
     _event_listener := 0%nat; _button := held;
     _is_activated := true; _time_activated := 1 |}.

(** Three markers seen by the camera, and the same three with a fourth. *)
Definition three_seen : dict Coord :=
  [ (0%Z, (10, 12)); (1%Z, (10, 90)); (13%Z, (88, 91)) ].

Definition four_seen : dict Coord :=
  [ (0%Z, (10, 12)); (1%Z, (10, 90)); (13%Z, (88, 91)); (12%Z, (89, 11)) ].

(** An OpenCV whose fit is always the identity matrix. *)
Definition finds_identity (fromArray toArray : list Coord)
    : cv2_result (option Matrix3) :=
  cv2_ok (Some identity3).

(** A calibrator as [demo] creates it. *)
Definition uncalibrated : Calibrator Matrix3 :=
  Calibrator__init__ (1080, 1920)%Z.

(** A short run of the loop: a frame with both hotspots touched, a failed
    read, and a frame without hands in which [c] is pressed. *)
Definition short_run : list iteration :=
  [ frame (Some both_touched) key_other; unsuccessful_read; frame None key_c ].

(** A clock that advances by 0.3 s from each reading to the next. *)
Definition drifting : Clock :=
  {| readings := fun n => inject_Z (Z.of_nat n) * (3 # 10); reads := 0 |}.

(** A button made on that clock (at 0), after its first [press] (which
    reads 0.3, 0.6 and 0.9), and after the [un_press] that follows (which
    reads 1.2 and 1.5). *)
Definition touched : bool * _Button * Clock :=
  press (fst (_Button__init__ drifting)) (snd (_Button__init__ drifting)).


(** A clock that shows the number of its readings so far, in seconds. *)
Definition seconds : Clock :=
  {| readings := fun n => inject_Z (Z.of_nat n); reads := 0 |}.

(** A calibrator after a photo of 480 by 640 and an identity fit. *)
Definition calibrated : Calibrator Matrix3 :=
  {| _screenWidth := 1080; _screenHeight := 1920;
     _cameraWidth := Some 480%Z; _cameraHeight := Some 640%Z;
     _tMatrix := Some identity3; _inverseTMatrix := Some identity3 |}.

(** Marker 5 detected twice, marker 2 once between. *)
Definition seen_twice : list (Z * Coord) :=
  [ (5%Z, (10, 12)); (2%Z, (40, 41)); (5%Z, (11, 13)) ].

(** A hotspot of [run] that is not activated, its button charging since
    [t = 0]. *)
Definition charging : Hotspot :=
  {| id := 0; _x := 1 # 2; _y := 1 # 2; _radius := default_radius;
     _event_listener := 0%nat; _button := held;
     _is_activated := false; _time_activated := 0 |}.

(** * Properties of the press state *)

Lemma value_at_spec (now : Q) (self : _Button) :
  value_at now self = PressState_value self now.
Proof.
  unfold value_at, get_pressed_amount, PressState_value, bind, time_time, at_time, ret.
  simpl. destruct (finger_is_over self); reflexivity.
Qed.

(** C3: [get_pressed_amount] returns the continuous value of the
    specification at the clock reading [now] it takes: the minimum of 1 and
    [prev_pressed_amount + (now - prev_time) / BUTTON_COOLDOWN] while the
    finger is over the hotspot, the maximum of 0 and
    [prev_pressed_amount - (now - prev_time) / BUTTON_COOLDOWN] while it is
    not; and it reads the clock exactly once. *)
Theorem get_pressed_amount_value (self : _Button) (c : Clock) :
  let now := readings c (reads c) in
  fst (get_pressed_amount self c) = PressState_value self now
  /\ (finger_is_over self = true ->
      fst (get_pressed_amount self c)
      = Qmin 1 (prev_pressed_amount self + (now - prev_time self) / BUTTON_COOLDOWN))
  /\ (finger_is_over self = false ->
      fst (get_pressed_amount self c)
      = Qmax 0 (prev_pressed_amount self - (now - prev_time self) / BUTTON_COOLDOWN))
  /\ reads (snd (get_pressed_amount self c)) = S (reads c).
Proof.
  unfold get_pressed_amount, PressState_value, bind, time_time, ret. simpl.
  destruct (finger_is_over self); simpl; repeat split; intros; congruence.
Qed.

Lemma get_pressed_amount_value_witness :
  fst (get_pressed_amount held (at_time (3 # 4)))
  = Qmin 1 (0 + ((3 # 4) - 0) / BUTTON_COOLDOWN)
  /\ fst (get_pressed_amount idle (at_time (3 # 4)))
     = Qmax 0 (1 - ((3 # 4) - 0) / BUTTON_COOLDOWN).
Proof.
  split.
  - apply (proj1 (proj2 (get_pressed_amount_value held (at_time (3 # 4))))).
    reflexivity.
  - apply (proj1 (proj2 (proj2 (get_pressed_amount_value idle (at_time (3 # 4)))))).
    reflexivity.
Defined.

(** Scenario 2 of the specification: charging from 0 at [t = 0], the value is
    one half at [t = 0.75] and one at [t = 1.5]. *)
Example value_half_way :
  value_at (3 # 4) held == 1 # 2 /\ value_at (3 # 2) held == 1.
Proof. split; reflexivity. Qed.

Lemma press_held (self : _Button) (c : Clock) :
  finger_is_over self = true -> snd (fst (press self c)) = self.
Proof.
  intros H. unfold press, bind, ret. rewrite H. simpl.
  destruct (get_pressed_amount self c). reflexivity.
Qed.

Lemma un_press_idle (self : _Button) (c : Clock) :
  finger_is_over self = false -> un_press self c = (self, c).
Proof. intros H. unfold un_press, ret. rewrite H. reflexivity. Qed.

(** C10: while the finger is already over the hotspot, [press] leaves every
    field of the button as it was, so continued presence never restarts the
    charge; while it is already away, [un_press] leaves the button, and even
    the clock, untouched. *)
Theorem no_retrigger_while_held (self : _Button) (c : Clock) :
  (finger_is_over self = true -> snd (fst (press self c)) = self)
  /\ (finger_is_over self = false -> un_press self c = (self, c)).
Proof. split; [apply press_held | apply un_press_idle]. Qed.

Lemma no_retrigger_while_held_witness :
  snd (fst (press held (at_time 2))) = held
  /\ un_press idle (at_time 2) = (idle, at_time 2).
Proof.
  split.
  - apply (proj1 (no_retrigger_while_held held (at_time 2))). reflexivity.
  - apply (proj2 (no_retrigger_while_held idle (at_time 2))). reflexivity.
Defined.

(** The elapsed time over the cooldown is not negative. *)
Lemma elapsed_nonneg (t0 now : Q) :
  t0 <= now -> 0 <= (now - t0) / BUTTON_COOLDOWN.
Proof.
  intros H. unfold BUTTON_COOLDOWN, Qdiv.
  apply Qmult_le_0_compat; [lra | discriminate].
Qed.

(** The value stays in the unit range. *)
Lemma value_in_range (now : Q) (self : _Button) :
  in_unit_range self -> prev_time self <= now ->
  0 <= value_at now self /\ value_at now self <= 1.
Proof.
  intros [Hlo Hhi] Ht. rewrite value_at_spec. unfold PressState_value.
  pose proof (elapsed_nonneg _ _ Ht) as He.
  destruct (finger_is_over self).
  - split.
    + apply Q.min_glb; lra.
    + apply Q.le_min_l.
  - split.
    + apply Q.le_max_l.
    + apply Q.max_lub; lra.
Qed.

(** What a flip stores: the value at the first reading of the call and, as
    transition time, the second reading. *)
Lemma press_flip_readings (self : _Button) (c : Clock) :
  finger_is_over self = false ->
  snd (fst (press self c))
  = {| finger_is_over := true;
       prev_time := readings c (S (reads c));
       prev_pressed_amount := PressState_value self (readings c (reads c)) |}.
Proof.
  intros H. unfold press, get_pressed_amount, PressState_value, bind,
              time_time, ret.
  rewrite H. reflexivity.
Qed.

Lemma un_press_flip_readings (self : _Button) (c : Clock) :
  finger_is_over self = true ->
  fst (un_press self c)
  = {| finger_is_over := false;
       prev_time := readings c (S (reads c));
       prev_pressed_amount := PressState_value self (readings c (reads c)) |}.
Proof.
  intros H. unfold un_press, get_pressed_amount, PressState_value, bind,
              time_time, ret.
  rewrite H. reflexivity.
Qed.


(** After a flip the value at the stored transition time is the value the
    button had at the first reading of the call. *)
Lemma flip_value_at_stored_time (self : _Button) (c : Clock) :
  in_unit_range self ->
  prev_time self <= readings c (reads c) ->
  (finger_is_over self = false ->
   PressState_value (snd (fst (press self c))) (readings c (S (reads c)))
   == PressState_value self (readings c (reads c)))
  /\ (finger_is_over self = true ->
      PressState_value (fst (un_press self c)) (readings c (S (reads c)))
      == PressState_value self (readings c (reads c))).
Proof.
  intros Hr Ht.
  assert (Hv : 0 <= PressState_value self (readings c (reads c))
               /\ PressState_value self (readings c (reads c)) <= 1).
  { rewrite <- value_at_spec. apply value_in_range; assumption. }
  destruct Hv as [Hlo Hhi].
  set (v := PressState_value self (readings c (reads c))) in *.
  set (t := readings c (S (reads c))).
  split; intros E.
  - rewrite press_flip_readings by exact E. fold v t.
    unfold PressState_value at 1. simpl.
    assert (Hz : v + (t - t) / BUTTON_COOLDOWN == v)
      by (unfold BUTTON_COOLDOWN; field).
    rewrite Hz. apply Q.min_r, Hhi.
  - rewrite un_press_flip_readings by exact E. fold v t.
    unfold PressState_value at 1. simpl.
    assert (Hz : v - (t - t) / BUTTON_COOLDOWN == v)
      by (unfold BUTTON_COOLDOWN; field).
    rewrite Hz. apply Q.max_r, Hlo.
Qed.



(** * Properties of a hotspot *)

(** C8: [deactivate] clears [_is_activated] and changes nothing else: the id,
    the position, the radius, the listener, the activation time and the whole
    button keep their values, so the pressed amount read afterwards is the
    one that would have been read before. *)
Theorem deactivate_frame (self : Hotspot) :
  _is_activated (deactivate self) = false
  /\ id (deactivate self) = id self
  /\ _x (deactivate self) = _x self
  /\ _y (deactivate self) = _y self
  /\ _radius (deactivate self) = _radius self
  /\ _event_listener (deactivate self) = _event_listener self
  /\ _time_activated (deactivate self) = _time_activated self
  /\ _button (deactivate self) = _button self
  /\ (forall c, get_pressed_amount (_button (deactivate self)) c
                = get_pressed_amount (_button self) c).
Proof. repeat split. Qed.

Lemma deactivate_idempotent (self : Hotspot) :
  deactivate (deactivate self) = deactivate self.
Proof. reflexivity. Qed.

(** [activate] sets the flag and stores the clock reading it takes. *)
Lemma activate_spec (self : Hotspot) (c : Clock) :
  fst (activate self c)
  = set_is_activated (set_time_activated self (readings c (reads c))) true.
Proof. reflexivity. Qed.

(** C9: two calls of [activate] that read the same time [now] leave the
    hotspot as one call does, and two calls of [deactivate] leave it as one
    call does. *)
Theorem activate_deactivate_idempotent (self : Hotspot) (c : Clock) :
  (readings c (S (reads c)) = readings c (reads c) ->
   fst ((h <- activate self ;; activate h) c) = fst (activate self c))
  /\ deactivate (deactivate self) = deactivate self.
Proof.
  split; [| apply deactivate_idempotent].
  intros H. unfold bind, activate, time_time, ret. simpl. rewrite H. reflexivity.
Qed.

Lemma activate_deactivate_idempotent_witness :
  fst ((h <- activate lit ;; activate h) (at_time 2)) = fst (activate lit (at_time 2))
  /\ deactivate (deactivate lit) = deactivate lit.
Proof.
  split.
  - apply (proj1 (activate_deactivate_idempotent lit (at_time 2))). reflexivity.
  - apply (proj2 (activate_deactivate_idempotent lit (at_time 2))).
Defined.

(** [update] never changes the id. *)
Lemma update_id (self : Hotspot) (points : list Point) (c : Clock) :
  id (snd (fst (update self points c))) = id self.
Proof.
  unfold update, bind, ret.
  destruct (_is_activated self); [reflexivity |].
  destruct (finger_inside self points).
  - destruct (press (_button self) c) as [[r b] c1]. simpl.
    destruct r; reflexivity.
  - destruct (un_press (_button self) c) as [b c1]. reflexivity.
Qed.

(** The flag after [update]: set when it returns [True], as before when it
    returns [False]. *)
Lemma update_activated (self : Hotspot) (points : list Point) (c : Clock) :
  _is_activated (snd (fst (update self points c)))
  = if fst (fst (update self points c)) then true else _is_activated self.
Proof.
  unfold update, bind, ret.
  destruct (_is_activated self) eqn:E; [simpl; exact E |].
  destruct (finger_inside self points).
  - destruct (press (_button self) c) as [[r b] c1]. simpl.
    destruct r; simpl; [reflexivity | exact E].
  - destruct (un_press (_button self) c) as [b c1]. simpl. exact E.
Qed.

(** An activated hotspot ignores its input. *)
Lemma update_activated_noop (self : Hotspot) (points : list Point) (c : Clock) :
  _is_activated self = true -> update self points c = (false, self, c).
Proof. intros H. unfold update, ret. rewrite H. reflexivity. Qed.

(** * Properties of the frame loop *)

Lemma store_set_eq (s : Store) (r : ref) (h : Hotspot) :
  store_set s r h r = h.
Proof. unfold store_set. rewrite Nat.eqb_refl. reflexivity. Qed.

Lemma store_set_neq (s : Store) (r r' : ref) (h : Hotspot) :
  r' <> r -> store_set s r h r' = s r'.
Proof.
  intros H. unfold store_set.
  destruct (Nat.eqb_spec r' r); [contradiction | reflexivity].
Qed.

Lemma listed_spec (hotspots : list ref) (r : ref) :
  existsb (Nat.eqb r) hotspots = true <-> In r hotspots.
Proof.
  rewrite existsb_exists. split.
  - intros [r' [Hin Heq]]. apply Nat.eqb_eq in Heq. subst. exact Hin.
  - intros Hin. exists r. split; [exact Hin | apply Nat.eqb_refl].
Qed.

(** The inner loop deactivates every listed object but [hotspot] and
    touches nothing else. *)
Lemma deactivate_others_at (hotspots : list ref) (hotspot : ref) :
  forall (s : Store) (r : ref),
    deactivate_others hotspots hotspot s r
    = if negb (Nat.eqb r hotspot) && existsb (Nat.eqb r) hotspots
      then deactivate (s r) else s r.
Proof.
  unfold deactivate_others.
  induction hotspots as [| o rest IH]; intros s r; simpl.
  - rewrite andb_false_r. reflexivity.
  - rewrite IH. clear IH.
    destruct (Nat.eqb_spec r hotspot) as [-> | Hne]; simpl.
    + destruct (Nat.eqb_spec o hotspot) as [-> | Hne']; [reflexivity |].
      apply store_set_neq. congruence.
    + destruct (Nat.eqb_spec o hotspot) as [-> | Hne'].
      * destruct (Nat.eqb_spec r hotspot); [contradiction | reflexivity].
      * destruct (Nat.eqb_spec r o) as [-> | Hro]; simpl.
        -- rewrite store_set_eq.
           destruct (existsb (Nat.eqb o) rest); reflexivity.
        -- rewrite store_set_neq by exact Hro. reflexivity.
Qed.

(** The loop of [media_finished] deactivates every listed object. *)
Lemma deactivate_all_at (hotspots : list ref) :
  forall (s : Store) (r : ref),
    fold_left (fun s hotspot => store_set s hotspot (deactivate (s hotspot)))
              hotspots s r
    = if existsb (Nat.eqb r) hotspots then deactivate (s r) else s r.
Proof.
  induction hotspots as [| o rest IH]; intros s r; simpl; [reflexivity |].
  rewrite IH. clear IH.
  destruct (Nat.eqb_spec r o) as [-> | Hro]; simpl.
  - rewrite store_set_eq. destruct (existsb (Nat.eqb o) rest); reflexivity.
  - rewrite store_set_neq by exact Hro. reflexivity.
Qed.

(** The two cases of the loop body. *)
Lemma arbiter_body_heap (hotspots : list ref) (points : list Point)
    (w : World) (hotspot : ref) :
  let u := update (heap w hotspot) points (clock w) in
  heap (arbiter_body hotspots points w hotspot)
  = if fst (fst u)
    then deactivate_others hotspots hotspot
           (store_set (heap w) hotspot (snd (fst u)))
    else store_set (heap w) hotspot (snd (fst u)).
Proof.
  unfold arbiter_body. simpl.
  destruct (update (heap w hotspot) points (clock w)) as [[j h] c].
  destruct j; reflexivity.
Qed.

Lemma arbiter_body_calls (hotspots : list ref) (points : list Point)
    (w : World) (hotspot : ref) :
  OnPressDetected (arbiter_body hotspots points w hotspot)
  = OnPressDetected w
    ++ (if fst (fst (update (heap w hotspot) points (clock w)))
        then [id (heap w hotspot)] else []).
Proof.
  unfold arbiter_body.
  pose proof (update_id (heap w hotspot) points (clock w)) as Hid.
  destruct (update (heap w hotspot) points (clock w)) as [[j h] c].
  simpl in *. destruct j; simpl; [rewrite Hid; reflexivity |].
  symmetry. apply app_nil_r.
Qed.

(** The flag of every object after the loop body. *)
Lemma arbiter_body_activated (hotspots : list ref) (points : list Point)
    (w : World) (hotspot r : ref) :
  _is_activated (heap (arbiter_body hotspots points w hotspot) r)
  = if fst (fst (update (heap w hotspot) points (clock w)))
    then if Nat.eqb r hotspot then true
         else if existsb (Nat.eqb r) hotspots then false
              else _is_activated (heap w r)
    else _is_activated (heap w r).
Proof.
  rewrite arbiter_body_heap. cbv zeta.
  pose proof (update_activated (heap w hotspot) points (clock w)) as Hact.
  destruct (update (heap w hotspot) points (clock w)) as [[j h] c].
  simpl in *. destruct j.
  - rewrite deactivate_others_at.
    destruct (Nat.eqb_spec r hotspot) as [-> | Hne]; simpl.
    + rewrite store_set_eq. exact Hact.
    + rewrite store_set_neq by exact Hne.
      destruct (existsb (Nat.eqb r) hotspots); reflexivity.
  - destruct (Nat.eqb_spec r hotspot) as [-> | Hne].
    + rewrite store_set_eq. exact Hact.
    + apply f_equal, store_set_neq, Hne.
Qed.

(** The loop body never changes an id. *)
Lemma arbiter_body_id (hotspots : list ref) (points : list Point)
    (w : World) (hotspot r : ref) :
  id (heap (arbiter_body hotspots points w hotspot) r) = id (heap w r).
Proof.
  rewrite arbiter_body_heap. cbv zeta.
  pose proof (update_id (heap w hotspot) points (clock w)) as Hid.
  destruct (update (heap w hotspot) points (clock w)) as [[j h] c].
  simpl in *.
  assert (Hs : id (store_set (heap w) hotspot h r) = id (heap w r)).
  { destruct (Nat.eqb_spec r hotspot) as [-> | Hne].
    - rewrite store_set_eq. exact Hid.
    - rewrite store_set_neq by exact Hne. reflexivity. }
  destruct j; [| exact Hs].
  rewrite deactivate_others_at.
  destruct (negb (Nat.eqb r hotspot) && existsb (Nat.eqb r) hotspots);
    simpl; exact Hs.
Qed.

(** The loop body keeps the invariant. *)
Lemma arbiter_body_at_most_one (hotspots : list ref) (points : list Point)
    (w : World) (hotspot : ref) :
  at_most_one_activated hotspots (heap w) ->
  at_most_one_activated hotspots
    (heap (arbiter_body hotspots points w hotspot)).
Proof.
  intros Hinv r1 r2 H1 H2.
  rewrite !arbiter_body_activated.
  destruct (fst (fst (update (heap w hotspot) points (clock w)))).
  - apply listed_spec in H1, H2. rewrite H1, H2.
    destruct (Nat.eqb_spec r1 hotspot), (Nat.eqb_spec r2 hotspot);
      congruence.
  - apply Hinv; assumption.
Qed.

Lemma arbiter_loop_at_most_one (hotspots : list ref) (points : list Point)
    (todo : list ref) :
  forall w, at_most_one_activated hotspots (heap w) ->
            at_most_one_activated hotspots
              (heap (arbiter_loop hotspots points todo w)).
Proof.
  unfold arbiter_loop.
  induction todo as [| r rest IH]; intros w Hinv; simpl; [exact Hinv |].
  apply IH, arbiter_body_at_most_one, Hinv.
Qed.

Lemma media_finished_at_most_one (hotspots : list ref) (w : World) :
  at_most_one_activated hotspots (heap (media_finished hotspots w)).
Proof.
  intros r1 r2 H1 _ Hact _. exfalso.
  unfold media_finished in Hact. simpl in Hact.
  rewrite deactivate_all_at in Hact.
  apply listed_spec in H1. rewrite H1 in Hact. discriminate.
Qed.

Lemma run_iteration_at_most_one (hotspots : list ref) (w : World)
    (it : iteration) :
  at_most_one_activated hotspots (heap w) ->
  at_most_one_activated hotspots (heap (run_iteration hotspots w it)).
Proof.
  intros Hinv. destruct it as [| tips pressed]; simpl; [exact Hinv |].
  assert (H1 : at_most_one_activated hotspots
                 (heap match tips with
                       | Some points => arbiter_pass hotspots points w
                       | None => w
                       end)).
  { destruct tips; [apply arbiter_loop_at_most_one |]; exact Hinv. }
  destruct pressed; try exact H1.
  apply media_finished_at_most_one.
Qed.

Lemma run_loop_at_most_one (hotspots : list ref) (its : list iteration) :
  forall w, at_most_one_activated hotspots (heap w) ->
            at_most_one_activated hotspots (heap (run_loop hotspots its w)).
Proof.
  induction its as [| it rest IH]; intros w Hinv; simpl; [exact Hinv |].
  pose proof (run_iteration_at_most_one hotspots w it Hinv) as H1.
  destruct it as [| tips pressed]; [apply IH, H1 |].
  destruct pressed; try (apply IH, H1). exact H1.
Qed.

(** The invariant, counted. *)
Lemma at_most_one_count (hotspots : list ref) (s : Store) :
  at_most_one_activated hotspots s <->
  (length (activated_hotspots hotspots s) <= 1)%nat.
Proof.
  unfold activated_hotspots.
  assert (Hin : forall r, In r (filter (fun r => _is_activated (s r))
                                       (nodup Nat.eq_dec hotspots))
                          <-> In r hotspots /\ _is_activated (s r) = true).
  { intros r. rewrite filter_In, nodup_In. reflexivity. }
  assert (Hnd : NoDup (filter (fun r => _is_activated (s r))
                              (nodup Nat.eq_dec hotspots)))
    by apply NoDup_filter, NoDup_nodup.
  destruct (filter (fun r => _is_activated (s r)) (nodup Nat.eq_dec hotspots))
    as [| a [| b l]]; split; intros H; simpl; try lia.
  - intros r1 r2 H1 _ A1 _. exfalso. apply (proj2 (Hin r1)). split; assumption.
  - intros r1 r2 H1 H2 A1 A2.
    assert (I1 : In r1 [a]) by (apply Hin; split; assumption).
    assert (I2 : In r2 [a]) by (apply Hin; split; assumption).
    destruct I1 as [<- | []]. destruct I2 as [<- | []]. reflexivity.
  - exfalso.
    destruct (proj1 (Hin a) (or_introl eq_refl)) as [Ia Aa].
    destruct (proj1 (Hin b) (or_intror (or_introl eq_refl))) as [Ib Ab].
    pose proof (H a b Ia Ib Aa Ab) as Hab. subst b.
    inversion Hnd as [| ? ? Hnot _]. apply Hnot. left. reflexivity.
  - simpl in H. lia.
Qed.

(** C1: mutual exclusion.  For every list of hotspots of which at most one is
    activated (none is, once constructed), every run of the frame loop from
    there and every further frame: when the pass over the hotspots of that
    frame completes, at most one listed hotspot is activated. *)
Theorem mutual_exclusion (hotspots : list ref) (w : World)
    (its : list iteration) (points : list Point) :
  (length (activated_hotspots hotspots (heap w)) <= 1)%nat ->
  (length (activated_hotspots hotspots
             (heap (arbiter_pass hotspots points (run_loop hotspots its w))))
   <= 1)%nat.
Proof.
  intros H. apply at_most_one_count, arbiter_loop_at_most_one,
              run_loop_at_most_one, at_most_one_count, H.
Qed.

Lemma mutual_exclusion_witness :
  (length (activated_hotspots run_hotspots
             (heap (arbiter_pass run_hotspots both_touched
                      (run_loop run_hotspots short_run
                         (run_setup 0%nat step_clock)))))
   <= 1)%nat.
Proof.
  apply (mutual_exclusion run_hotspots (run_setup 0%nat step_clock)
           short_run both_touched).
  vm_compute. lia.
Defined.

(** The listener receives, in order, the ids of the hotspots whose [update]
    returned [True]. *)
Lemma arbiter_loop_calls (hotspots : list ref) (points : list Point)
    (todo : list ref) :
  forall w,
    OnPressDetected (arbiter_loop hotspots points todo w)
    = OnPressDetected w
      ++ map (fun r => id (heap w r)) (just_activated hotspots points todo w).
Proof.
  unfold arbiter_loop.
  induction todo as [| r rest IH]; intros w; simpl.
  - symmetry. apply app_nil_r.
  - rewrite IH, arbiter_body_calls, <- app_assoc, map_app. f_equal.
    f_equal.
    + destruct (fst (fst (update (heap w r) points (clock w)))); reflexivity.
    + apply map_ext. intros r'. apply arbiter_body_id.
Qed.

(** While no [update] returns [True], no flag changes. *)
Lemma arbiter_loop_quiet (hotspots : list ref) (points : list Point)
    (todo : list ref) :
  forall w r,
    just_activated hotspots points todo w = [] ->
    _is_activated (heap (arbiter_loop hotspots points todo w) r)
    = _is_activated (heap w r).
Proof.
  unfold arbiter_loop.
  induction todo as [| r0 rest IH]; intros w r H; simpl in *; [reflexivity |].
  apply app_eq_nil in H. destruct H as [H0 Hrest].
  rewrite (IH _ r Hrest), arbiter_body_activated.
  destruct (fst (fst (update (heap w r0) points (clock w))));
    [discriminate | reflexivity].
Qed.

(** The last hotspot whose [update] returned [True] is the one activated
    when the loop ends. *)
Lemma arbiter_loop_last (hotspots : list ref) (points : list Point)
    (todo : list ref) :
  forall w earlier last,
    just_activated hotspots points todo w = earlier ++ [last] ->
    forall r, In r hotspots \/ r = last ->
      _is_activated (heap (arbiter_loop hotspots points todo w) r)
      = Nat.eqb r last.
Proof.
  induction todo as [| r0 rest IH]; intros w earlier last H r Hr.
  - simpl in H. destruct earlier; discriminate.
  - simpl in H.
    destruct (just_activated hotspots points rest
                (arbiter_body hotspots points w r0)) as [| a l] eqn:E.
    + rewrite app_nil_r in H.
      change (arbiter_loop hotspots points (r0 :: rest) w)
        with (arbiter_loop hotspots points rest
                (arbiter_body hotspots points w r0)).
      rewrite (arbiter_loop_quiet _ _ _ _ r E), arbiter_body_activated.
      destruct (fst (fst (update (heap w r0) points (clock w)))).
      * destruct earlier as [| e [| e' earlier]]; try discriminate.
        injection H as Heq. subst last.
        destruct (Nat.eqb_spec r r0) as [-> | Hne]; [reflexivity |].
        destruct Hr as [Hin | ->]; [| contradiction].
        apply listed_spec in Hin. rewrite Hin. reflexivity.
      * destruct earlier; discriminate.
    + destruct (exists_last (l := a :: l)) as [l' [z Hl]]; [discriminate |].
      rewrite Hl, app_assoc in H. apply app_inj_tail in H.
      destruct H as [_ ->].
      change (arbiter_loop hotspots points (r0 :: rest) w)
        with (arbiter_loop hotspots points rest
                (arbiter_body hotspots points w r0)).
      apply (IH _ l' last); [rewrite E; exact Hl | exact Hr].
Qed.

(** C2, as the code has it: last wins.  In every frame in which some
    hotspots cross the activation threshold (their [update] returns [True]),
    the last of them in iteration order ends the frame activated, every
    other listed hotspot ends it deactivated, and the listener receives one
    activation event for each of them, in iteration order, carrying its id. *)
Theorem last_activation_wins (hotspots : list ref) (points : list Point)
    (w : World) (earlier : list ref) (last : ref) :
  just_activated hotspots points hotspots w = earlier ++ [last] ->
  _is_activated (heap (arbiter_pass hotspots points w) last) = true
  /\ (forall r, In r hotspots -> r <> last ->
        _is_activated (heap (arbiter_pass hotspots points w) r) = false)
  /\ OnPressDetected (arbiter_pass hotspots points w)
     = OnPressDetected w
       ++ map (fun r => id (heap w r)) (earlier ++ [last]).
Proof.
  intros H. unfold arbiter_pass. split; [| split].
  - rewrite (arbiter_loop_last _ _ _ _ _ _ H last (or_intror eq_refl)).
    apply Nat.eqb_refl.
  - intros r Hin Hne.
    rewrite (arbiter_loop_last _ _ _ _ _ _ H r (or_introl Hin)).
    apply Nat.eqb_neq, Hne.
  - rewrite arbiter_loop_calls, H. reflexivity.
Qed.

Lemma last_activation_wins_witness :
  _is_activated (heap (arbiter_pass run_hotspots both_touched both_charging) 1%nat)
  = true
  /\ (forall r, In r run_hotspots -> r <> 1%nat ->
        _is_activated (heap (arbiter_pass run_hotspots both_touched both_charging) r)
        = false)
  /\ OnPressDetected (arbiter_pass run_hotspots both_touched both_charging)
     = OnPressDetected both_charging
       ++ map (fun r => id (heap both_charging r)) ([0%nat] ++ [1%nat]).
Proof.
  apply (last_activation_wins run_hotspots both_touched both_charging
           [0%nat] 1%nat).
  vm_compute. reflexivity.
Defined.

(** C2 as stated fails: in the frame after [both_charging] both hotspots
    cross the threshold; the first in iteration order (id 0) is told to the
    listener and then deactivated by the second (id 1), which ends the frame
    activated and is told to the listener as well. *)
Lemma first_wins_counterexample :
  just_activated run_hotspots both_touched run_hotspots both_charging
  = [0%nat; 1%nat]
  /\ _is_activated
       (heap (arbiter_pass run_hotspots both_touched both_charging) 0%nat)
     = false
  /\ _is_activated
       (heap (arbiter_pass run_hotspots both_touched both_charging) 1%nat)
     = true
  /\ OnPressDetected both_charging = []
  /\ OnPressDetected (arbiter_pass run_hotspots both_touched both_charging)
     = [0%Z; 1%Z].
Proof. vm_compute. repeat split. Qed.

(** * Properties of the calibration *)

Lemma dict_get_set {V : Type} (d : dict V) (k k' : Z) (v : V) :
  dict_get (dict_set d k v) k' = if Z.eqb k k' then Some v else dict_get d k'.
Proof.
  induction d as [| [k0 v0] d IH]; simpl.
  - reflexivity.
  - destruct (Z.eqb_spec k0 k) as [-> | Hne]; simpl.
    + destruct (Z.eqb_spec k k'); reflexivity.
    + rewrite IH. destruct (Z.eqb_spec k0 k') as [-> | Hne'];
        [| reflexivity].
      destruct (Z.eqb_spec k k'); [congruence | reflexivity].
Qed.

(** Induction along a loop over [range]. *)
Lemma fold_range_ind {St : Type} (P : nat -> St -> Prop) (f : St -> Z -> St)
    (n : nat) :
  (forall j st, (j < n)%nat -> P j st -> P (S j) (f st (Z.of_nat j))) ->
  forall st, P 0%nat st -> P n (fold_left f (range n) st).
Proof.
  intros Hstep. unfold range.
  assert (H : forall len a st, (a + len <= n)%nat -> P a st ->
                P (a + len)%nat (fold_left f (map Z.of_nat (seq a len)) st)).
  { induction len as [| len IH]; intros a st Hle Hp; simpl.
    - rewrite Nat.add_0_r. exact Hp.
    - replace (a + S len)%nat with (S a + len)%nat by lia.
      apply IH; [lia |]. apply Hstep; [lia | exact Hp]. }
  intros st Hp. apply (H n 0%nat st); [lia | exact Hp].
Qed.

(** The position the loops give marker [code] on a grid with [cols]
    columns. *)
Lemma marker_grid_lookup (rows cols : nat) (spacing offset code : Z) :
  (0 <= code < Z.of_nat rows * Z.of_nat cols)%Z ->
  dict_get (marker_grid rows cols spacing offset) code
  = Some (offset + spacing * (code / Z.of_nat cols),
          offset + spacing * (code mod Z.of_nat cols))%Z.
Proof.
  intros Hcode. unfold marker_grid.
  set (pos := fun k : Z => (offset + spacing * (k / Z.of_nat cols),
                            offset + spacing * (k mod Z.of_nat cols))%Z).
  set (inner := fun (i : Z) (st : dict (Z * Z) * Z) (j : Z) =>
                  let '(projectedCoords, code) := st in
                  (dict_set projectedCoords code
                            (offset + spacing * i, offset + spacing * j)%Z,
                   (code + 1)%Z)).
  set (filled := fun (n : Z) (st : dict (Z * Z) * Z) =>
                   snd st = n
                   /\ forall k, (0 <= k < n)%Z -> dict_get (fst st) k = Some (pos k)).
  assert (Hrow : forall i st, (i < rows)%nat ->
            filled (Z.of_nat i * Z.of_nat cols)%Z st ->
            filled (Z.of_nat (S i) * Z.of_nat cols)%Z
                   (fold_left (inner (Z.of_nat i)) (range cols) st)).
  { intros i st Hi Hst.
    replace (Z.of_nat (S i) * Z.of_nat cols)%Z
      with (Z.of_nat i * Z.of_nat cols + Z.of_nat cols)%Z by lia.
    apply (fold_range_ind
             (fun j st => filled (Z.of_nat i * Z.of_nat cols + Z.of_nat j)%Z st)).
    - intros j [d c] Hj [Hc Hd]. simpl in Hc, Hd. subst c.
      unfold filled, inner. simpl. split; [lia |].
      intros k Hk. rewrite dict_get_set.
      destruct (Z.eqb_spec (Z.of_nat i * Z.of_nat cols + Z.of_nat j) k)
        as [<- | Hne].
      + unfold pos.
        rewrite <- (Z.div_unique _ (Z.of_nat cols) (Z.of_nat i) (Z.of_nat j))
          by lia.
        rewrite <- (Z.mod_unique _ (Z.of_nat cols) (Z.of_nat i) (Z.of_nat j))
          by lia.
        reflexivity.
      + apply Hd. lia.
    - rewrite Z.add_0_r. exact Hst. }
  assert (Hall : filled (Z.of_nat rows * Z.of_nat cols)%Z
                   (fold_left (fun st i => fold_left (inner i) (range cols) st)
                              (range rows) ([], 0%Z))).
  { apply (fold_range_ind
             (fun i st => filled (Z.of_nat i * Z.of_nat cols)%Z st)
             (fun st i => fold_left (inner i) (range cols) st)).
    - exact Hrow.
    - split; [reflexivity | simpl; lia]. }
  destruct Hall as [_ Hall]. apply Hall, Hcode.
Qed.

(** C7, as the code has it: on every grid the loops put marker [code] at
    [(offset + spacing * (code div cols), offset + spacing * (code mod cols))];
    the grid of the source has 6 rows of 12 columns, spacing 150 and offset
    25, with marker 0 at (25, 25) and marker 13 at (175, 175). *)
Theorem marker_grid_position (rows cols : nat) (spacing offset code : Z) :
  (0 <= code < Z.of_nat rows * Z.of_nat cols)%Z ->
  dict_get (marker_grid rows cols spacing offset) code
  = Some (offset + spacing * (code / Z.of_nat cols),
          offset + spacing * (code mod Z.of_nat cols))%Z
  /\ projectedCoords = marker_grid 6 12 150 25
  /\ dict_get projectedCoords 0 = Some (25, 25)%Z
  /\ dict_get projectedCoords 13 = Some (175, 175)%Z.
Proof.
  intros H. split; [apply marker_grid_lookup, H |].
  repeat split.
Qed.

Lemma marker_grid_position_witness :
  dict_get (marker_grid 6 12 150 25) 13
  = Some (25 + 150 * (13 / Z.of_nat 12), 25 + 150 * (13 mod Z.of_nat 12))%Z
  /\ projectedCoords = marker_grid 6 12 150 25
  /\ dict_get projectedCoords 0 = Some (25, 25)%Z
  /\ dict_get projectedCoords 13 = Some (175, 175)%Z.
Proof. apply (marker_grid_position 6 12 150 25 13). simpl. lia. Defined.

(** C7 as stated fails: marker 13 is not at (25, 175), neither on the grid of
    the source (6 rows of 12) nor on a grid of 12 rows of 6. *)
Lemma marker_13_counterexample :
  dict_get projectedCoords 13 = Some (175, 175)%Z
  /\ dict_get projectedCoords 13 <> Some (25, 175)%Z
  /\ dict_get (marker_grid 12 6 150 25) 13 = Some (325, 175)%Z
  /\ dict_get (marker_grid 12 6 150 25) 13 <> Some (25, 175)%Z.
Proof. repeat split; vm_compute; discriminate. Qed.

Lemma dict_mem_get {V : Type} (d : dict V) (k : Z) :
  dict_mem d k = match dict_get d k with Some _ => true | None => false end.
Proof. reflexivity. Qed.

(** The arrays of [matching] have one entry for every id of [fromCoords]
    that [toCoords] has too. *)
Lemma matching_length (fromCoords toCoords : dict Coord) :
  length (fst (matching fromCoords toCoords))
  = intersection_size fromCoords toCoords
  /\ length (snd (matching fromCoords toCoords))
     = intersection_size fromCoords toCoords.
Proof.
  unfold matching, intersection_size.
  set (step := fun (arrays : list Coord * list Coord) (entry : Z * Coord) =>
                 let '(fromArray, toArray) := arrays in
                 let '(iD, fromCoord) := entry in
                 match dict_get toCoords iD with
                 | Some toCoord => (fromArray ++ [fromCoord], toArray ++ [toCoord])
                 | None => arrays
                 end).
  assert (H : forall l fa ta,
             length (fst (fold_left step l (fa, ta)))
             = (length fa
                + length (filter (fun entry => dict_mem toCoords (fst entry)) l))%nat
             /\ length (snd (fold_left step l (fa, ta)))
                = (length ta
                   + length (filter (fun entry => dict_mem toCoords (fst entry)) l))%nat).
  { induction l as [| [k v] l IH]; intros fa ta; simpl.
    - split; lia.
    - rewrite dict_mem_get. destruct (dict_get toCoords k) as [v' |].
      + destruct (IH (fa ++ [v]) (ta ++ [v'])) as [H1 H2].
        rewrite H1, H2, !length_app. simpl. split; lia.
      + apply IH. }
  destruct (H fromCoords [] []) as [H1 H2]. split; assumption.
Qed.

Lemma getTransformationMatrix_cases (Matrix : Type)
    (findHomography : list Coord -> list Coord -> cv2_result (option Matrix))
    (fromCoords toCoords : dict Coord) :
  _getTransformationMatrix findHomography fromCoords toCoords
  = if (intersection_size fromCoords toCoords <? 4)%nat
    then Returns None
    else from_cv2 (findHomography (fst (matching fromCoords toCoords))
                                  (snd (matching fromCoords toCoords))).
Proof.
  unfold _getTransformationMatrix.
  destruct (matching_length fromCoords toCoords) as [H _].
  destruct (matching fromCoords toCoords) as [fa ta]. simpl in *.
  rewrite H. reflexivity.
Qed.

(** C5, as the code has it: with fewer than 4 ids in both dictionaries
    [_getTransformationMatrix] returns [None], and [calibrate] then returns
    with [_tMatrix] and [_inverseTMatrix] left [None]; with 4 or more it
    returns what [cv2.findHomography] gives for the matched points; it never
    raises a typed calibration error. *)
Theorem insufficient_matches_give_none (Matrix : Type)
    (findHomography : list Coord -> list Coord -> cv2_result (option Matrix))
    (fromCoords toCoords : dict Coord) :
  ((intersection_size fromCoords toCoords < 4)%nat ->
   _getTransformationMatrix findHomography fromCoords toCoords = Returns None)
  /\ ((4 <= intersection_size fromCoords toCoords)%nat ->
      _getTransformationMatrix findHomography fromCoords toCoords
      = from_cv2 (findHomography (fst (matching fromCoords toCoords))
                                 (snd (matching fromCoords toCoords))))
  /\ (forall e, _getTransformationMatrix findHomography fromCoords toCoords
                <> Raises (CalibrationFailure e))
  /\ (forall self photo_shape cameraCoords,
        (intersection_size projected_float32 cameraCoords < 4)%nat ->
        (intersection_size cameraCoords projected_float32 < 4)%nat ->
        exists self',
          calibrate findHomography self photo_shape cameraCoords = Returns self'
          /\ _tMatrix self' = None /\ _inverseTMatrix self' = None).
Proof.
  rewrite getTransformationMatrix_cases.
  split; [| split; [| split]].
  - intros H. apply Nat.ltb_lt in H. rewrite H. reflexivity.
  - intros H. apply Nat.ltb_ge in H. rewrite H. reflexivity.
  - intros e. destruct (intersection_size fromCoords toCoords <? 4)%nat;
      [discriminate |].
    destruct (findHomography _ _); discriminate.
  - intros self photo_shape cameraCoords H1 H2. unfold calibrate.
    rewrite !getTransformationMatrix_cases.
    apply Nat.ltb_lt in H1, H2. rewrite H1, H2.
    eexists. repeat split.
Qed.

Lemma insufficient_matches_give_none_witness :
  _getTransformationMatrix finds_identity projected_float32 three_seen
  = Returns None
  /\ _getTransformationMatrix finds_identity projected_float32 four_seen
     = from_cv2 (finds_identity (fst (matching projected_float32 four_seen))
                                (snd (matching projected_float32 four_seen))).
Proof.
  split.
  - apply (proj1 (insufficient_matches_give_none Matrix3 finds_identity
                    projected_float32 three_seen)).
    vm_compute. lia.
  - apply (proj1 (proj2 (insufficient_matches_give_none Matrix3 finds_identity
                           projected_float32 four_seen))).
    vm_compute. lia.
Defined.

(** C5 as stated fails: with three matching markers
    [_getTransformationMatrix] returns [None] in both directions and
    [calibrate] returns normally, the two matrices left [None]; no error is
    raised. *)
Lemma three_matches_counterexample :
  intersection_size projected_float32 three_seen = 3%nat
  /\ _getTransformationMatrix finds_identity projected_float32 three_seen
     = Returns None
  /\ _getTransformationMatrix finds_identity three_seen projected_float32
     = Returns None
  /\ calibrate finds_identity uncalibrated (480, 640)%Z three_seen
     = Returns {| _screenWidth := 1080; _screenHeight := 1920;
                  _cameraWidth := Some 480%Z; _cameraHeight := Some 640%Z;
                  _tMatrix := None; _inverseTMatrix := None |}
  /\ calibrate finds_identity uncalibrated (480, 640)%Z three_seen
     <> Raises (CalibrationFailure InsufficientCorrespondences).
Proof. repeat split; vm_compute; discriminate. Qed.

(** C6, as the code has it: [transform] and [inverseTransform] make no test
    of the calibration.  On a calibrator whose matrices are [None] they hand
    [None] to [cv2.perspectiveTransform], and end as that call ends: with
    its result, the coordinates swapped, or with its [cv2.error]; never with
    a typed [NotCalibrated] error. *)
Theorem uncalibrated_transform_unchecked (Matrix : Type)
    (perspectiveTransform : Coord -> option Matrix -> cv2_result Coord)
    (self : Calibrator Matrix) (vector : Coord) :
  _tMatrix self = None ->
  _inverseTMatrix self = None ->
  transform perspectiveTransform self vector
  = match perspectiveTransform vector None with
    | cv2_ok transformedVector =>
        Returns (snd transformedVector, fst transformedVector)
    | cv2_fail => Raises cv2_error
    end
  /\ inverseTransform perspectiveTransform self vector
     = transform perspectiveTransform self vector
  /\ transform perspectiveTransform self vector
     <> Raises (CalibrationFailure NotCalibrated)
  /\ inverseTransform perspectiveTransform self vector
     <> Raises (CalibrationFailure NotCalibrated).
Proof.
  intros H1 H2. unfold transform, inverseTransform. rewrite H1, H2.
  repeat split; destruct (perspectiveTransform vector None); discriminate.
Qed.

Lemma uncalibrated_transform_unchecked_witness :
  transform perspectiveTransform3 uncalibrated (700, 700)
  = match perspectiveTransform3 (700, 700) None with
    | cv2_ok transformedVector =>
        Returns (snd transformedVector, fst transformedVector)
    | cv2_fail => Raises cv2_error
    end
  /\ inverseTransform perspectiveTransform3 uncalibrated (700, 700)
     = transform perspectiveTransform3 uncalibrated (700, 700)
  /\ transform perspectiveTransform3 uncalibrated (700, 700)
     <> Raises (CalibrationFailure NotCalibrated)
  /\ inverseTransform perspectiveTransform3 uncalibrated (700, 700)
     <> Raises (CalibrationFailure NotCalibrated).
Proof.
  apply (uncalibrated_transform_unchecked Matrix3 perspectiveTransform3
           uncalibrated (700, 700)); reflexivity.
Defined.

(** C6 as stated fails: on the calibrator [demo] creates, before any
    calibration, [transform] ends with OpenCV's untyped [cv2.error]. *)
Lemma not_calibrated_counterexample :
  _tMatrix uncalibrated = None
  /\ transform perspectiveTransform3 uncalibrated (700, 700) = Raises cv2_error
  /\ inverseTransform perspectiveTransform3 uncalibrated (700, 700)
     = Raises cv2_error
  /\ transform perspectiveTransform3 uncalibrated (700, 700)
     <> Raises (CalibrationFailure NotCalibrated).
Proof. repeat split. discriminate. Qed.

(** After [skipCalibration] the transform is the identity, coordinates
    swapped. *)
Example skipped_transform :
  match transform perspectiveTransform3
          (skipCalibration identity3 uncalibrated) (700, 100) with
  | Returns (a, b) => a == 100 /\ b == 700
  | Raises _ => False
  end.
Proof. simpl. split; reflexivity. Qed.

(** * Further properties of the button *)

Lemma pressed_amount_reading (self : _Button) (c : Clock) :
  get_pressed_amount self c
  = (PressState_value self (readings c (reads c)), advance 1 c).
Proof.
  unfold get_pressed_amount, PressState_value, bind, time_time, ret, advance.
  destruct (finger_is_over self); reflexivity.
Qed.

Lemma value_range (self : _Button) (now : Q) :
  in_unit_range self -> prev_time self <= now ->
  0 <= PressState_value self now /\ PressState_value self now <= 1.
Proof.
  intros Hr Ht. rewrite <- value_at_spec. apply value_in_range; assumption.
Qed.

(** X1: as its docstring says, [get_pressed_amount] returns a value between
    0 and 1, for a button whose stored amount is between 0 and 1 and whose
    stored transition time is not after the time read. *)
Theorem pressed_amount_between_0_and_1 (self : _Button) (c : Clock) :
  in_unit_range self ->
  prev_time self <= readings c (reads c) ->
  0 <= fst (get_pressed_amount self c) /\ fst (get_pressed_amount self c) <= 1.
Proof.
  intros Hr Ht. rewrite pressed_amount_reading. simpl.
  apply value_range; assumption.
Qed.

Lemma pressed_amount_between_0_and_1_witness :
  0 <= fst (get_pressed_amount held (at_time (3 # 4)))
  /\ fst (get_pressed_amount held (at_time (3 # 4))) <= 1.
Proof.
  apply (pressed_amount_between_0_and_1 held (at_time (3 # 4))).
  - unfold in_unit_range. simpl. split; discriminate.
  - simpl. discriminate.
Defined.

(** The clock and the button after [press] and [un_press]. *)
Lemma press_clock (self : _Button) (c : Clock) :
  snd (press self c) = advance (if finger_is_over self then 1 else 3) c.
Proof.
  unfold press, bind, ret. destruct (finger_is_over self); simpl;
    rewrite !pressed_amount_reading; reflexivity.
Qed.

Lemma un_press_clock (self : _Button) (c : Clock) :
  snd (un_press self c) = advance (if finger_is_over self then 2 else 0) c.
Proof.
  unfold un_press, bind, ret. destruct (finger_is_over self); simpl.
  - rewrite pressed_amount_reading. reflexivity.
  - destruct c. reflexivity.
Qed.

Lemma press_result_held (self : _Button) (c : Clock) :
  finger_is_over self = true ->
  fst (fst (press self c))
  = Qeq_bool (PressState_value self (readings c (reads c))) 1.
Proof.
  intros H. unfold press, bind, ret. rewrite H. simpl.
  rewrite pressed_amount_reading. reflexivity.
Qed.

(** One frame keeps the stored amount in range and the stored time not after
    the next reading, on a clock that never goes backwards. *)
Lemma frame_keeps_range (touched : bool) (self : _Button) (c : Clock) :
  nondecreasing c ->
  in_unit_range self -> prev_time self <= readings c (reads c) ->
  let self' := if touched then snd (fst (press self c)) else fst (un_press self c) in
  let c' := if touched then snd (press self c) else snd (un_press self c) in
  in_unit_range self' /\ prev_time self' <= readings c' (reads c')
  /\ readings c' = readings c /\ (reads c <= reads c')%nat.
Proof.
  intros Hc Hr Ht. cbv zeta.
  pose proof (value_range self _ Hr Ht) as Hv.
  destruct touched.
  - rewrite press_clock. destruct (finger_is_over self) eqn:E.
    + rewrite press_held by exact E. simpl. repeat split; try apply Hr; try lia.
      apply Qle_trans with (1 := Ht), Hc. lia.
    + rewrite press_flip_readings by exact E. simpl.
      repeat split; try apply Hv; try lia. apply Hc. lia.
  - rewrite un_press_clock. destruct (finger_is_over self) eqn:E.
    + rewrite un_press_flip_readings by exact E. simpl.
      repeat split; try apply Hv; try lia. apply Hc. lia.
    + rewrite un_press_idle by exact E. simpl.
      repeat split; try apply Hr; try lia. exact Ht.
Qed.

Lemma drive_keeps_range (touches : list bool) :
  forall (self : _Button) (c : Clock),
    in_unit_range self -> prev_time self <= readings c (reads c) ->
    nondecreasing c ->
    in_unit_range (fst (drive touches self c))
    /\ prev_time (fst (drive touches self c))
       <= readings c (reads (snd (drive touches self c)))
    /\ readings (snd (drive touches self c)) = readings c.
Proof.
  induction touches as [| touched rest IH]; intros self c Hr Ht Hc.
  - simpl. repeat split; try apply Hr. exact Ht.
  - pose proof (frame_keeps_range touched self c Hc Hr Ht) as H.
    cbv zeta in H. destruct H as [Hr' [Ht' [Hrd Hle]]].
    destruct touched; simpl; unfold bind.
    + destruct (press self c) as [[res b] c1]. simpl in *.
      assert (Hc1 : nondecreasing c1) by (unfold nondecreasing; rewrite Hrd; exact Hc).
      destruct (IH b c1 Hr' Ht' Hc1) as [A [B C]].
      rewrite Hrd in B, C. repeat split; try apply A; assumption.
    + destruct (un_press self c) as [b c1]. simpl in *.
      assert (Hc1 : nondecreasing c1) by (unfold nondecreasing; rewrite Hrd; exact Hc).
      destruct (IH b c1 Hr' Ht' Hc1) as [A [B C]].
      rewrite Hrd in B, C. repeat split; try apply A; assumption.
Qed.

(** X2: on a clock that never goes backwards, a button made by [__init__]
    and then taken through any frames of [press] and [un_press] keeps its
    stored amount between 0 and 1 and its stored transition time not after
    the next reading of the clock: the amount it reports next is again
    between 0 and 1. *)
Theorem button_stays_in_range (touches : list bool) (c : Clock) :
  nondecreasing c ->
  let made := _Button__init__ c in
  let driven := drive touches (fst made) (snd made) in
  in_unit_range (fst driven)
  /\ prev_time (fst driven) <= readings (snd driven) (reads (snd driven))
  /\ 0 <= fst (get_pressed_amount (fst driven) (snd driven))
  /\ fst (get_pressed_amount (fst driven) (snd driven)) <= 1.
Proof.
  intros Hc made driven.
  assert (Hc1 : nondecreasing (snd made)) by exact Hc.
  assert (Hr : in_unit_range (fst made))
    by (unfold in_unit_range; simpl; split; discriminate).
  assert (Ht : prev_time (fst made) <= readings (snd made) (reads (snd made)))
    by (simpl; apply Hc; lia).
  destruct (drive_keeps_range touches (fst made) (snd made) Hr Ht Hc1)
    as [A [B C]].
  fold driven in A, B, C.
  assert (B' : prev_time (fst driven) <= readings (snd driven) (reads (snd driven)))
    by (rewrite C; exact B).
  split; [exact A | split; [exact B' |]].
  rewrite pressed_amount_reading. simpl. apply value_range; assumption.
Qed.

Lemma seconds_nondecreasing : nondecreasing seconds.
Proof.
  intros n m H. unfold seconds, Qle. simpl. lia.
Defined.

Lemma button_stays_in_range_witness :
  in_unit_range
    (fst (drive [true; true; false] (fst (_Button__init__ seconds))
                (snd (_Button__init__ seconds))))
  /\ prev_time
       (fst (drive [true; true; false] (fst (_Button__init__ seconds))
                   (snd (_Button__init__ seconds))))
     <= readings
          (snd (drive [true; true; false] (fst (_Button__init__ seconds))
                      (snd (_Button__init__ seconds))))
          (reads (snd (drive [true; true; false] (fst (_Button__init__ seconds))
                             (snd (_Button__init__ seconds)))))
  /\ 0 <= fst (get_pressed_amount
                 (fst (drive [true; true; false] (fst (_Button__init__ seconds))
                             (snd (_Button__init__ seconds))))
                 (snd (drive [true; true; false] (fst (_Button__init__ seconds))
                             (snd (_Button__init__ seconds)))))
  /\ fst (get_pressed_amount
            (fst (drive [true; true; false] (fst (_Button__init__ seconds))
                        (snd (_Button__init__ seconds))))
            (snd (drive [true; true; false] (fst (_Button__init__ seconds))
                        (snd (_Button__init__ seconds)))))
     <= 1.
Proof.
  exact (button_stays_in_range [true; true; false] seconds seconds_nondecreasing).
Defined.

Lemma over_cooldown (d : Q) : d / BUTTON_COOLDOWN == d * (2 # 3).
Proof. unfold BUTTON_COOLDOWN. field. Qed.



(** X4: while the finger stays over the hotspot the pressed amount never
    decreases with the time read, and while it stays away the amount never
    increases. *)
Theorem pressed_amount_monotone (self : _Button) (c1 c2 : Clock) :
  readings c1 (reads c1) <= readings c2 (reads c2) ->
  (finger_is_over self = true ->
   fst (get_pressed_amount self c1) <= fst (get_pressed_amount self c2))
  /\ (finger_is_over self = false ->
      fst (get_pressed_amount self c2) <= fst (get_pressed_amount self c1)).
Proof.
  intros Ht. rewrite !pressed_amount_reading. simpl. unfold PressState_value.
  split; intros H; rewrite H.
  - apply Q.min_le_compat_l. rewrite !over_cooldown. lra.
  - apply Q.max_le_compat_l. rewrite !over_cooldown. lra.
Qed.

Lemma pressed_amount_monotone_witness :
  fst (get_pressed_amount held (at_time (1 # 2)))
  <= fst (get_pressed_amount held (at_time 1))
  /\ fst (get_pressed_amount idle (at_time 1))
     <= fst (get_pressed_amount idle (at_time (1 # 2))).
Proof.
  split.
  - apply (proj1 (pressed_amount_monotone held (at_time (1 # 2)) (at_time 1)
                    ltac:(simpl; discriminate))).
    reflexivity.
  - apply (proj2 (pressed_amount_monotone idle (at_time (1 # 2)) (at_time 1)
                    ltac:(simpl; discriminate))).
    reflexivity.
Defined.

(** * Further properties of a hotspot *)

Lemma finger_inside_from (self : Hotspot) (points : list Point) :
  forall inside,
    fold_left (fun inside point =>
                 if _is_point_inside self point then true else inside)
              points inside
    = inside || existsb (_is_point_inside self) points.
Proof.
  induction points as [| p points IH]; intros inside; simpl.
  - symmetry. apply orb_false_r.
  - rewrite IH. destruct (_is_point_inside self p), inside; reflexivity.
Qed.

Lemma finger_inside_exists (self : Hotspot) (points : list Point) :
  finger_inside self points = existsb (_is_point_inside self) points.
Proof. unfold finger_inside. apply finger_inside_from. Qed.

(** X5: [update] returns [True] exactly when the hotspot is not activated,
    some fingertip lies inside it and [press] on its button returns [True];
    in particular it returns [False] for an empty list of fingertips. *)
Theorem update_result (self : Hotspot) (points : list Point) (c : Clock) :
  fst (fst (update self points c))
  = negb (_is_activated self)
    && existsb (_is_point_inside self) points
    && fst (fst (press (_button self) c))
  /\ fst (fst (update self [] c)) = false.
Proof.
  split.
  - unfold update, bind, ret. rewrite finger_inside_exists.
    destruct (_is_activated self); [reflexivity |].
    destruct (existsb (_is_point_inside self) points); simpl.
    + destruct (press (_button self) c) as [[r b] c1]. simpl.
      destruct r; reflexivity.
    + destruct (un_press (_button self) c) as [b c1]. reflexivity.
  - unfold update, bind, ret. destruct (_is_activated self); [reflexivity |].
    simpl. destruct (un_press (_button self) c) as [b c1]. reflexivity.
Qed.

(** X6: [update] never changes the id, the position, the radius or the
    listener of a hotspot; when it returns [False] the activation flag and
    time are as before; and on an activated hotspot it changes nothing and
    does not read the clock. *)
Theorem update_frame (self : Hotspot) (points : list Point) (c : Clock) :
  let self' := snd (fst (update self points c)) in
  id self' = id self /\ _x self' = _x self /\ _y self' = _y self
  /\ _radius self' = _radius self
  /\ _event_listener self' = _event_listener self
  /\ (fst (fst (update self points c)) = false ->
      _is_activated self' = _is_activated self
      /\ _time_activated self' = _time_activated self)
  /\ (_is_activated self = true -> update self points c = (false, self, c)).
Proof.
  cbv zeta. unfold update, bind, ret.
  destruct (_is_activated self) eqn:E.
  - simpl. repeat split; auto.
  - destruct (finger_inside self points).
    + destruct (press (_button self) c) as [[r b] c1]. simpl.
      destruct r; simpl; repeat split; auto; discriminate.
    + destruct (un_press (_button self) c) as [b c1]. simpl.
      repeat split; auto; discriminate.
Qed.

Lemma update_frame_witness :
  update lit both_touched (at_time 2) = (false, lit, at_time 2).
Proof.
  apply (proj2 (proj2 (proj2 (proj2 (proj2 (proj2
           (update_frame lit both_touched (at_time 2)))))))).
  reflexivity.
Defined.



(** [press] on a button the finger was not over: three readings. *)
Lemma press_flip_full (self : _Button) (c : Clock) :
  finger_is_over self = false ->
  let self' := {| finger_is_over := true;
                  prev_time := readings c (S (reads c));
                  prev_pressed_amount :=
                    PressState_value self (readings c (reads c)) |} in
  press self c
  = (Qeq_bool (PressState_value self' (readings c (S (S (reads c))))) 1,
     self', advance 3 c).
Proof.
  intros H. cbv zeta. unfold press, bind, ret. rewrite H. simpl.
  rewrite !pressed_amount_reading. reflexivity.
Qed.

(** When [press] returns [True] the button is held and full at one of the
    readings of the call. *)
Lemma press_true_charged (self : _Button) (c : Clock) :
  fst (fst (press self c)) = true ->
  let self' := snd (fst (press self c)) in
  finger_is_over self' = true
  /\ readings (snd (press self c)) = readings c
  /\ exists n, (n < reads (snd (press self c)))%nat
               /\ 1 <= prev_pressed_amount self'
                       + (readings c n - prev_time self') / BUTTON_COOLDOWN.
Proof.
  cbv zeta. destruct (finger_is_over self) eqn:E.
  - rewrite press_result_held by exact E. rewrite press_held by exact E.
    rewrite press_clock. intros H. split; [exact E |]. rewrite E.
    split; [reflexivity |].
    exists (reads c). split; [simpl; lia |].
    apply Qeq_bool_iff in H. unfold PressState_value in H. rewrite E in H.
    apply Q.min_l_iff in H. exact H.
  - rewrite (press_flip_full self c E). simpl. intros H.
    split; [reflexivity | split; [reflexivity |]].
    exists (S (S (reads c))). split; [lia |].
    apply Qeq_bool_iff in H. unfold PressState_value in H. simpl in H.
    apply Q.min_l_iff in H. exact H.
Qed.

(** X8: deactivation does not discharge the button.  When [update] has
    returned [True] on a clock that never goes backwards, the hotspot, once
    deactivated, returns [True] again at the first later [update] that finds
    a fingertip inside it. *)
Theorem deactivated_hotspot_fires_again (self : Hotspot)
    (points points' : list Point) (c c' : Clock) :
  nondecreasing c ->
  fst (fst (update self points c)) = true ->
  let self' := snd (fst (update self points c)) in
  finger_inside self' points' = true ->
  _time_activated self' <= readings c' (reads c') ->
  fst (fst (update (deactivate self') points' c')) = true.
Proof.
  intros Hc Hup self' Hin Hlater.
  assert (Hself' : finger_is_over (_button self') = true
                   /\ exists t, t <= _time_activated self'
                                /\ 1 <= prev_pressed_amount (_button self')
                                        + (t - prev_time (_button self'))
                                          / BUTTON_COOLDOWN).
  { subst self'. revert Hup. unfold update, bind, ret.
    destruct (_is_activated self); [discriminate |].
    destruct (finger_inside self points).
    - pose proof (press_true_charged (_button self) c) as Hp.
      destruct (press (_button self) c) as [[r b] c1]. simpl in *.
      destruct r; [| discriminate]. intros _.
      destruct (Hp eq_refl) as [Hb [Hrd [n [Hn Hfull]]]].
      simpl. split; [exact Hb |].
      exists (readings c n). split; [| exact Hfull].
      unfold time_time. simpl. rewrite Hrd. apply Hc. lia.
    - destruct (un_press (_button self) c) as [b c1]. discriminate. }
  destruct Hself' as [Hheld [t [Ht Hfull]]].
  assert (Hres : fst (fst (update (deactivate self') points' c'))
                 = fst (fst (press (_button self') c'))).
  { unfold update, bind, ret.
    change (_is_activated (deactivate self')) with false.
    change (finger_inside (deactivate self') points')
      with (finger_inside self' points').
    change (_button (deactivate self')) with (_button self').
    rewrite Hin. cbv iota.
    destruct (press (_button self') c') as [[r b] c1]. simpl.
    destruct r; reflexivity. }
  rewrite Hres, press_result_held by exact Hheld.
  apply Qeq_bool_iff. unfold PressState_value. rewrite Hheld.
  apply Q.min_l_iff. rewrite over_cooldown in *. lra.
Qed.

Lemma deactivated_hotspot_fires_again_witness :
  fst (fst (update (deactivate (snd (fst (update charging both_touched (at_time 2)))))
                   both_touched (at_time 3)))
  = true.
Proof.
  apply (deactivated_hotspot_fires_again charging both_touched both_touched
           (at_time 2) (at_time 3)).
  - intros n m _. simpl. discriminate.
  - reflexivity.
  - reflexivity.
  - simpl. discriminate.
Defined.

(** * Further properties of the frame loops *)

Lemma just_activated_listed (hotspots : list ref) (points : list Point)
    (todo : list ref) :
  forall w r, In r (just_activated hotspots points todo w) -> In r todo.
Proof.
  induction todo as [| r0 rest IH]; intros w r H; simpl in *; [exact H |].
  apply in_app_or in H. destruct H as [H | H].
  - destruct (fst (fst (update (heap w r0) points (clock w))));
      [| destruct H].
    destruct H as [-> | []]. left. reflexivity.
  - right. apply (IH _ _ H).
Qed.

Lemma arbiter_loop_id (hotspots : list ref) (points : list Point)
    (todo : list ref) :
  forall w r, id (heap (arbiter_loop hotspots points todo w) r) = id (heap w r).
Proof.
  unfold arbiter_loop.
  induction todo as [| r0 rest IH]; intros w r; simpl; [reflexivity |].
  rewrite IH. apply arbiter_body_id.
Qed.

Lemma media_finished_at (hotspots : list ref) (w : World) (r : ref) :
  heap (media_finished hotspots w) r
  = if existsb (Nat.eqb r) hotspots then deactivate (heap w r) else heap w r.
Proof. unfold media_finished. simpl. apply deactivate_all_at. Qed.

Lemma run_iteration_id (hotspots : list ref) (w : World) (it : iteration)
    (r : ref) :
  id (heap (run_iteration hotspots w it) r) = id (heap w r).
Proof.
  destruct it as [| tips pressed]; simpl; [reflexivity |].
  assert (H : id (heap (draw_all hotspots
                          match tips with
                          | Some points => arbiter_pass hotspots points w
                          | None => w
                          end) r) = id (heap w r)).
  { simpl. destruct tips; [apply arbiter_loop_id | reflexivity]. }
  destruct pressed; try exact H.
  rewrite media_finished_at.
  destruct (existsb (Nat.eqb r) hotspots); exact H.
Qed.

(** What one turn of the loop tells the listener. *)
Lemma run_iteration_calls (hotspots : list ref) (w : World) (it : iteration) :
  exists new,
    OnPressDetected (run_iteration hotspots w it) = OnPressDetected w ++ new
    /\ Forall (fun k => exists r, In r hotspots /\ id (heap w r) = k) new.
Proof.
  destruct it as [| [points |] pressed].
  - exists []. simpl. rewrite app_nil_r. split; [reflexivity | constructor].
  - exists (map (fun r => id (heap w r))
                (just_activated hotspots points hotspots w)).
    split.
    + replace (OnPressDetected (run_iteration hotspots w (frame (Some points) pressed)))
        with (OnPressDetected (arbiter_pass hotspots points w))
        by (destruct pressed; reflexivity).
      apply arbiter_loop_calls.
    + apply Forall_forall. intros k Hk. apply in_map_iff in Hk.
      destruct Hk as [r [Hid Hr]]. exists r. split; [| exact Hid].
      apply (just_activated_listed _ _ _ _ _ Hr).
  - exists []. rewrite app_nil_r. split; [| constructor].
    destruct pressed; reflexivity.
Qed.

(** X9: the listener's log only grows, and only by ids of listed hotspots:
    after any run of the loop of [run] the calls received before are still a
    prefix of the log, and every call added carries the id of a hotspot of
    the list. *)
Theorem listener_log_grows (hotspots : list ref) (its : list iteration)
    (w : World) :
  exists new,
    OnPressDetected (run_loop hotspots its w) = OnPressDetected w ++ new
    /\ Forall (fun k => exists r, In r hotspots /\ id (heap w r) = k) new.
Proof.
  revert w. induction its as [| it rest IH]; intros w.
  - exists []. simpl. rewrite app_nil_r. split; [reflexivity | constructor].
  - destruct (run_iteration_calls hotspots w it) as [new1 [E1 F1]].
    assert (Hrest : exists new,
               OnPressDetected (run_loop hotspots rest (run_iteration hotspots w it))
               = OnPressDetected w ++ new
               /\ Forall (fun k => exists r, In r hotspots /\ id (heap w r) = k) new).
    { destruct (IH (run_iteration hotspots w it)) as [new2 [E2 F2]].
      exists (new1 ++ new2). split.
      - rewrite E2, E1, app_assoc. reflexivity.
      - apply Forall_app. split; [exact F1 |].
        eapply Forall_impl; [| exact F2]. intros k [r [Hr Hid]].
        exists r. split; [exact Hr |]. rewrite <- Hid.
        symmetry. apply run_iteration_id. }
    simpl. destruct it as [| tips pressed]; [exact Hrest |].
    destruct pressed; try exact Hrest.
    exists new1. split; assumption.
Qed.

(** X10: turns of the loop without hands update nothing.  Through any run of
    failed reads and of frames in which the model reports no hands (and [c]
    is not pressed) every hotspot, its button included, stays as it was: no
    [un_press] is made, and nothing is told to the listener. *)
Theorem no_hands_no_update (hotspots : list ref) (its : list iteration)
    (w : World) :
  forallb handless its = true ->
  heap (run_loop hotspots its w) = heap w
  /\ OnPressDetected (run_loop hotspots its w) = OnPressDetected w.
Proof.
  revert w. induction its as [| it rest IH]; intros w H; simpl in *.
  - split; reflexivity.
  - apply andb_true_iff in H. destruct H as [Hit Hrest].
    destruct it as [| [points |] pressed]; simpl in Hit; try discriminate.
    + apply IH, Hrest.
    + destruct pressed; try discriminate.
      * split; reflexivity.
      * exact (IH (draw_all hotspots w) Hrest).
Qed.

Lemma no_hands_no_update_witness :
  heap (run_loop run_hotspots
          [unsuccessful_read; frame None key_other; frame None key_q]
          both_charging)
  = heap both_charging
  /\ OnPressDetected
       (run_loop run_hotspots
          [unsuccessful_read; frame None key_other; frame None key_q]
          both_charging)
     = OnPressDetected both_charging.
Proof.
  apply (no_hands_no_update run_hotspots
           [unsuccessful_read; frame None key_other; frame None key_q]
           both_charging).
  reflexivity.
Defined.

(** X11: a pass in which no [update] returns [True] deactivates and
    activates nothing and tells the listener nothing. *)
Theorem quiet_pass (hotspots : list ref) (points : list Point) (w : World) :
  just_activated hotspots points hotspots w = [] ->
  (forall r, _is_activated (heap (arbiter_pass hotspots points w) r)
             = _is_activated (heap w r))
  /\ OnPressDetected (arbiter_pass hotspots points w) = OnPressDetected w.
Proof.
  intros H. unfold arbiter_pass. split.
  - intros r. apply arbiter_loop_quiet, H.
  - rewrite arbiter_loop_calls, H. apply app_nil_r.
Qed.

Lemma quiet_pass_witness :
  (forall r, _is_activated
               (heap (arbiter_pass run_hotspots []
                        (run_setup 0%nat step_clock)) r)
             = _is_activated (heap (run_setup 0%nat step_clock) r))
  /\ OnPressDetected (arbiter_pass run_hotspots [] (run_setup 0%nat step_clock))
     = OnPressDetected (run_setup 0%nat step_clock).
Proof.
  apply (quiet_pass run_hotspots [] (run_setup 0%nat step_clock)).
  reflexivity.
Defined.

(** X12: [media_finished] deactivates every listed hotspot and does nothing
    else: a listed object differs from before in its flag only (its button
    keeps its charge), other objects, the clock and the listener's log are
    untouched, and no listed hotspot is activated afterwards. *)
Theorem media_finished_effect (hotspots : list ref) (w : World) :
  (forall r, In r hotspots ->
             heap (media_finished hotspots w) r = deactivate (heap w r))
  /\ (forall r, ~ In r hotspots ->
                heap (media_finished hotspots w) r = heap w r)
  /\ clock (media_finished hotspots w) = clock w
  /\ OnPressDetected (media_finished hotspots w) = OnPressDetected w
  /\ activated_hotspots hotspots (heap (media_finished hotspots w)) = [].
Proof.
  split; [| split; [| split; [| split]]]; try reflexivity.
  - intros r Hr. rewrite media_finished_at.
    apply listed_spec in Hr. rewrite Hr. reflexivity.
  - intros r Hr. rewrite media_finished_at.
    destruct (existsb (Nat.eqb r) hotspots) eqn:E; [| reflexivity].
    apply listed_spec in E. contradiction.
  - unfold activated_hotspots.
    destruct (filter (fun r => _is_activated (heap (media_finished hotspots w) r))
                     (nodup Nat.eq_dec hotspots)) as [| a l] eqn:E;
      [reflexivity | exfalso].
    assert (Ha : In a (a :: l)) by (left; reflexivity).
    rewrite <- E in Ha. apply filter_In in Ha. destruct Ha as [Hin Hact].
    apply nodup_In in Hin. rewrite media_finished_at in Hact.
    apply listed_spec in Hin. rewrite Hin in Hact. discriminate.
Qed.

(** The pass of [run2] and the pass of [run] on the same store and clock. *)
Lemma arbiter_body2_same (hotspots : list ref) (points : list Point)
    (w w2 : World) (hotspot : ref) :
  heap w2 = heap w -> clock w2 = clock w ->
  heap (arbiter_body2 hotspots points w2 hotspot)
  = heap (arbiter_body hotspots points w hotspot)
  /\ clock (arbiter_body2 hotspots points w2 hotspot)
     = clock (arbiter_body hotspots points w hotspot)
  /\ OnPressDetected (arbiter_body2 hotspots points w2 hotspot)
     = OnPressDetected w2.
Proof.
  intros Hh Hc. unfold arbiter_body2, arbiter_body. rewrite Hh, Hc.
  destruct (update (heap w hotspot) points (clock w)) as [[j h] c].
  destruct j; simpl; repeat split.
Qed.

Lemma arbiter_loop2_same (hotspots : list ref) (points : list Point)
    (todo : list ref) :
  forall w w2,
    heap w2 = heap w -> clock w2 = clock w ->
    heap (fold_left (arbiter_body2 hotspots points) todo w2)
    = heap (arbiter_loop hotspots points todo w)
    /\ clock (fold_left (arbiter_body2 hotspots points) todo w2)
       = clock (arbiter_loop hotspots points todo w)
    /\ OnPressDetected (fold_left (arbiter_body2 hotspots points) todo w2)
       = OnPressDetected w2.
Proof.
  unfold arbiter_loop.
  induction todo as [| r rest IH]; intros w w2 Hh Hc; simpl.
  - repeat split; assumption.
  - destruct (arbiter_body2_same hotspots points w w2 r Hh Hc) as [A [B C]].
    destruct (IH _ _ A B) as [A' [B' C']].
    rewrite C' , C. repeat split; assumption.
Qed.

Lemma arbiter_pass2_same (hotspots : list ref) (points : list Point)
    (w : World) :
  heap (arbiter_pass2 hotspots points w) = heap (arbiter_pass hotspots points w)
  /\ clock (arbiter_pass2 hotspots points w)
     = clock (arbiter_pass hotspots points w)
  /\ OnPressDetected (arbiter_pass2 hotspots points w) = OnPressDetected w.
Proof.
  unfold arbiter_pass2, arbiter_pass.
  apply arbiter_loop2_same; reflexivity.
Qed.

Lemma run2_iteration_calls (global_hotspots hotspots : list ref) (w : World)
    (it : iteration) :
  OnPressDetected (run2_iteration global_hotspots hotspots w it)
  = OnPressDetected w.
Proof.
  destruct it as [| [points |] pressed]; simpl; [reflexivity | |].
  - destruct pressed; simpl; apply arbiter_pass2_same.
  - destruct pressed; reflexivity.
Qed.

(** X13: the activations of [run2] are not reported.  Its pass changes the
    hotspots and the clock exactly as the pass of [run] does, and through
    any run of its loop the listener is told nothing. *)
Theorem run2_never_notifies (global_hotspots hotspots : list ref)
    (its : list iteration) (points : list Point) (w : World) :
  heap (arbiter_pass2 hotspots points w) = heap (arbiter_pass hotspots points w)
  /\ clock (arbiter_pass2 hotspots points w)
     = clock (arbiter_pass hotspots points w)
  /\ OnPressDetected (run2_loop global_hotspots hotspots its w)
     = OnPressDetected w.
Proof.
  split; [apply arbiter_pass2_same | split; [apply arbiter_pass2_same |]].
  revert w. induction its as [| it rest IH]; intros w; simpl; [reflexivity |].
  pose proof (run2_iteration_calls global_hotspots hotspots w it) as H1.
  destruct it as [| tips pressed]; [rewrite IH; exact H1 |].
  destruct pressed; try (rewrite IH; exact H1). exact H1.
Qed.

(** X14: in [run2] the key [c] deactivates the hotspots of the module-level
    list, not those passed to [run2]: a hotspot that is not in the
    module-level list (which starts empty) is after a turn with [c] exactly
    as after the same turn without it. *)
Theorem run2_key_c_misses_parameter (global_hotspots hotspots : list ref)
    (w : World) (fingertip_coords : option (list Point)) (r : ref) :
  ~ In r global_hotspots ->
  heap (run2_iteration global_hotspots hotspots w (frame fingertip_coords key_c)) r
  = heap (run2_iteration global_hotspots hotspots w
            (frame fingertip_coords key_other)) r.
Proof.
  intros H. unfold run2_iteration. cbv beta iota zeta.
  rewrite media_finished_at.
  destruct (existsb (Nat.eqb r) global_hotspots) eqn:E; [| reflexivity].
  apply listed_spec in E. contradiction.
Qed.

Lemma run2_key_c_misses_parameter_witness :
  heap (run2_iteration [] run_hotspots both_charging
          (frame (Some both_touched) key_c)) 1%nat
  = heap (run2_iteration [] run_hotspots both_charging
            (frame (Some both_touched) key_other)) 1%nat.
Proof.
  apply (run2_key_c_misses_parameter [] run_hotspots both_charging
           (Some both_touched) 1%nat).
  simpl. tauto.
Defined.

(** * Further properties of the calibration *)

Lemma dict_mem_keys {V : Type} (d : dict V) (k : Z) :
  dict_mem d k = true <-> In k (keys d).
Proof.
  unfold dict_mem, keys.
  induction d as [| [k0 v0] d IH]; simpl.
  - split; [discriminate | intros []].
  - destruct (Z.eqb_spec k0 k) as [-> | Hne].
    + split; [left; reflexivity | reflexivity].
    + rewrite IH. split; [right; assumption | intros [H | H]; [contradiction | exact H]].
Qed.

Lemma dict_get_absent {V : Type} (d : dict V) (k : Z) :
  ~ In k (keys d) -> dict_get d k = None.
Proof.
  intros H. destruct (dict_get d k) eqn:E; [| reflexivity].
  exfalso. apply H, dict_mem_keys. unfold dict_mem. rewrite E. reflexivity.
Qed.

Lemma keys_set {V : Type} (d : dict V) (k : Z) (v : V) :
  keys (dict_set d k v) = if dict_mem d k then keys d else keys d ++ [k].
Proof.
  unfold dict_mem, keys.
  induction d as [| [k0 v0] d IH]; simpl; [reflexivity |].
  destruct (Z.eqb_spec k0 k) as [-> | Hne]; simpl; [reflexivity |].
  rewrite IH. destruct (dict_get d k); reflexivity.
Qed.

Lemma keys_set_NoDup {V : Type} (d : dict V) (k : Z) (v : V) :
  NoDup (keys d) -> NoDup (keys (dict_set d k v)).
Proof.
  intros H. rewrite keys_set. destruct (dict_mem d k) eqn:E; [exact H |].
  apply NoDup_app; [exact H | repeat constructor; intros [] |].
  intros a Ha [<- | []]. apply dict_mem_keys in Ha. congruence.
Qed.

Lemma find_last {A : Type} (f : A -> bool) (l : list A) (a : A) :
  find f (l ++ [a])
  = match find f l with
    | Some b => Some b
    | None => if f a then Some a else None
    end.
Proof.
  induction l as [| b l IH]; simpl; [reflexivity |].
  destruct (f b); [reflexivity | exact IH].
Qed.

Lemma detect_fold (markers : list (Z * Coord)) :
  forall (d : dict Coord) (k : Z),
    dict_get (fold_left (fun detectedCoords marker =>
                           dict_set detectedCoords (fst marker) (snd marker))
                        markers d) k
    = match find (fun marker => Z.eqb (fst marker) k) (rev markers) with
      | Some marker => Some (snd marker)
      | None => dict_get d k
      end.
Proof.
  induction markers as [| m markers IH]; intros d k; simpl; [reflexivity |].
  rewrite IH, find_last, dict_get_set.
  destruct (find (fun marker => Z.eqb (fst marker) k) (rev markers));
    [reflexivity |].
  destruct (Z.eqb (fst m) k); reflexivity.
Qed.

Lemma detect_keys_NoDup (detected : option (list (Z * Coord))) :
  NoDup (keys (_detectArucos detected)).
Proof.
  destruct detected as [markers |]; simpl; [| constructor].
  assert (H : forall d, NoDup (keys d) ->
                NoDup (keys (fold_left
                               (fun detectedCoords marker =>
                                  dict_set detectedCoords (fst marker) (snd marker))
                               markers d))).
  { induction markers as [| m markers IH]; intros d Hd; simpl; [exact Hd |].
    apply IH, keys_set_NoDup, Hd. }
  apply H. constructor.
Qed.

(** X15: the dictionary [_detectArucos] returns gives every detected id the
    corner of its last detection, has no entry for an id that was not
    detected (none at all when nothing was detected), and holds every id
    once. *)
Theorem detected_markers (detected : option (list (Z * Coord))) (k : Z) :
  dict_get (_detectArucos detected) k
  = match detected with
    | None => None
    | Some markers =>
        match find (fun marker => Z.eqb (fst marker) k) (rev markers) with
        | Some marker => Some (snd marker)
        | None => None
        end
    end
  /\ NoDup (keys (_detectArucos detected)).
Proof.
  split; [| apply detect_keys_NoDup].
  destruct detected as [markers |]; [| reflexivity].
  unfold _detectArucos. rewrite detect_fold. reflexivity.
Qed.

Example detected_twice :
  _detectArucos (Some seen_twice) = [ (5%Z, (11, 13)); (2%Z, (40, 41)) ].
Proof. reflexivity. Qed.

(** The keys of the grid. *)
Lemma range_S (n : nat) : range (S n) = range n ++ [Z.of_nat n].
Proof. unfold range. rewrite seq_S, map_app. reflexivity. Qed.

Lemma in_range (n : nat) (k : Z) :
  In k (range n) <-> (0 <= k < Z.of_nat n)%Z.
Proof.
  unfold range. rewrite in_map_iff. split.
  - intros [i [<- Hi]]. apply in_seq in Hi. lia.
  - intros H. exists (Z.to_nat k). split; [lia |]. apply in_seq. lia.
Qed.

Lemma range_NoDup (n : nat) : NoDup (range n).
Proof.
  induction n as [| n IH]; [constructor |].
  rewrite range_S.
  apply NoDup_app; [exact IH | repeat constructor; intros [] |].
  intros a Ha [<- | []]. apply in_range in Ha. lia.
Qed.

Lemma marker_grid_keys (rows cols : nat) (spacing offset : Z) :
  keys (marker_grid rows cols spacing offset) = range (rows * cols).
Proof.
  unfold marker_grid.
  set (inner := fun (i : Z) (st : dict (Z * Z) * Z) (j : Z) =>
                  let '(projectedCoords, code) := st in
                  (dict_set projectedCoords code
                            (offset + spacing * i, offset + spacing * j)%Z,
                   (code + 1)%Z)).
  set (filled := fun (n : nat) (st : dict (Z * Z) * Z) =>
                   snd st = Z.of_nat n /\ keys (fst st) = range n).
  assert (Hrow : forall i st, (i < rows)%nat ->
            filled (i * cols)%nat st ->
            filled (S i * cols)%nat
                   (fold_left (inner (Z.of_nat i)) (range cols) st)).
  { intros i st Hi Hst.
    replace (S i * cols)%nat with (i * cols + cols)%nat by lia.
    apply (fold_range_ind (fun j st => filled (i * cols + j)%nat st)).
    - intros j [d c] Hj [Hc Hd]. simpl in Hc, Hd. subst c.
      unfold filled, inner. simpl. split; [lia |].
      rewrite keys_set.
      destruct (dict_mem d (Z.of_nat (i * cols + j))) eqn:E.
      + apply dict_mem_keys in E. rewrite Hd in E. apply in_range in E. lia.
      + rewrite Hd. replace (i * cols + S j)%nat with (S (i * cols + j)) by lia.
        symmetry. apply range_S.
    - rewrite Nat.add_0_r. exact Hst. }
  assert (Hall : filled (rows * cols)%nat
                   (fold_left (fun st i => fold_left (inner i) (range cols) st)
                              (range rows) ([], 0%Z))).
  { apply (fold_range_ind (fun i st => filled (i * cols)%nat st)
             (fun st i => fold_left (inner i) (range cols) st)).
    - exact Hrow.
    - split; reflexivity. }
  apply Hall.
Qed.

(** X16: the loops of [calibrate] give the layout exactly the ids
    [0 .. rows*cols - 1], each once and in increasing order: the layout has
    [rows*cols] markers and no entry for any other id. *)
Theorem marker_grid_ids (rows cols : nat) (spacing offset : Z) :
  keys (marker_grid rows cols spacing offset) = range (rows * cols)
  /\ length (marker_grid rows cols spacing offset) = (rows * cols)%nat
  /\ (forall code, ~ (0 <= code < Z.of_nat (rows * cols))%Z ->
                   dict_get (marker_grid rows cols spacing offset) code = None).
Proof.
  pose proof (marker_grid_keys rows cols spacing offset) as Hk.
  split; [exact Hk | split].
  - rewrite <- (length_map fst). fold (keys (marker_grid rows cols spacing offset)).
    rewrite Hk. unfold range. rewrite length_map, length_seq. reflexivity.
  - intros code Hc. apply dict_get_absent. rewrite Hk, in_range. exact Hc.
Qed.

Lemma marker_grid_present (rows cols : nat) (spacing offset code : Z)
    (p : Z * Z) :
  dict_get (marker_grid rows cols spacing offset) code = Some p ->
  (0 <= code < Z.of_nat rows * Z.of_nat cols)%Z
  /\ p = (offset + spacing * (code / Z.of_nat cols),
          offset + spacing * (code mod Z.of_nat cols))%Z.
Proof.
  intros H.
  assert (Hin : (0 <= code < Z.of_nat rows * Z.of_nat cols)%Z).
  { assert (Hk : In code (keys (marker_grid rows cols spacing offset))).
    { apply dict_mem_keys. unfold dict_mem. rewrite H. reflexivity. }
    rewrite marker_grid_keys, in_range in Hk. lia. }
  split; [exact Hin |].
  rewrite (marker_grid_lookup _ _ _ _ _ Hin) in H. congruence.
Qed.

(** X17: markers of a given size drawn at the positions of the layout, on a
    grid whose spacing is at least that size, stay within the rows and
    columns the grid spans and never overlap: two different ids are apart by
    at least the size along one of the axes. *)
Theorem markers_do_not_overlap (rows cols : nat) (spacing offset size : Z)
    (code1 code2 : Z) (p1 p2 : Z * Z) :
  (0 <= size <= spacing)%Z ->
  dict_get (marker_grid rows cols spacing offset) code1 = Some p1 ->
  dict_get (marker_grid rows cols spacing offset) code2 = Some p2 ->
  (offset <= fst p1 <= offset + spacing * (Z.of_nat rows - 1)
   /\ offset <= snd p1 <= offset + spacing * (Z.of_nat cols - 1))%Z
  /\ (code1 <> code2 ->
      (fst p1 + size <= fst p2 \/ fst p2 + size <= fst p1
       \/ snd p1 + size <= snd p2 \/ snd p2 + size <= snd p1)%Z).
Proof.
  intros Hs H1 H2.
  apply marker_grid_present in H1, H2.
  destruct H1 as [R1 ->], H2 as [R2 ->]. simpl.
  assert (Hc : (0 < Z.of_nat cols)%Z) by nia.
  pose proof (Z.div_mod code1 (Z.of_nat cols) ltac:(lia)) as D1.
  pose proof (Z.div_mod code2 (Z.of_nat cols) ltac:(lia)) as D2.
  pose proof (Z.mod_pos_bound code1 (Z.of_nat cols) Hc) as M1.
  pose proof (Z.mod_pos_bound code2 (Z.of_nat cols) Hc) as M2.
  set (q1 := (code1 / Z.of_nat cols)%Z) in *.
  set (q2 := (code2 / Z.of_nat cols)%Z) in *.
  set (m1 := (code1 mod Z.of_nat cols)%Z) in *.
  set (m2 := (code2 mod Z.of_nat cols)%Z) in *.
  assert (Q1 : (0 <= q1 <= Z.of_nat rows - 1)%Z) by nia.
  split.
  - split; nia.
  - intros Hne.
    assert (Q2 : (0 <= q2 <= Z.of_nat rows - 1)%Z) by nia.
    destruct (Z.lt_trichotomy q1 q2) as [L | [E | L]].
    + left. nia.
    + destruct (Z.lt_trichotomy m1 m2) as [L' | [E' | L']].
      * right. right. left. nia.
      * exfalso. apply Hne. lia.
      * right. right. right. nia.
    + right. left. nia.
Qed.

Lemma markers_do_not_overlap_witness :
  ((25 <= fst (175, 25) <= 25 + 150 * (Z.of_nat 6 - 1)
    /\ 25 <= snd (175, 25) <= 25 + 150 * (Z.of_nat 12 - 1))
   /\ (12 <> 13 ->
       fst (175, 25) + 100 <= fst (175, 175)
       \/ fst (175, 175) + 100 <= fst (175, 25)
       \/ snd (175, 25) + 100 <= snd (175, 175)
       \/ snd (175, 175) + 100 <= snd (175, 25)))%Z.
Proof.
  apply (markers_do_not_overlap 6 12 150 25 100 12 13 (175, 25)%Z (175, 175)%Z).
  - lia.
  - reflexivity.
  - reflexivity.
Defined.

Lemma intersection_size_keys {V W : Type} (a : dict V) (b : dict W) :
  intersection_size a b = length (filter (dict_mem b) (keys a)).
Proof.
  unfold intersection_size, keys.
  induction a as [| [k v] a IH]; simpl; [reflexivity |].
  destruct (dict_mem b k); simpl; rewrite IH; reflexivity.
Qed.

Lemma common_keys_incl {V W : Type} (a : dict V) (b : dict W) :
  incl (filter (dict_mem b) (keys a)) (filter (dict_mem a) (keys b)).
Proof.
  intros k Hk. apply filter_In in Hk. destruct Hk as [Ha Hb].
  apply filter_In. split; [apply dict_mem_keys, Hb | apply dict_mem_keys, Ha].
Qed.

Lemma intersection_size_sym {V W : Type} (a : dict V) (b : dict W) :
  NoDup (keys a) -> NoDup (keys b) ->
  intersection_size a b = intersection_size b a.
Proof.
  intros Ha Hb. rewrite !intersection_size_keys.
  apply Nat.le_antisymm; apply NoDup_incl_length;
    try apply common_keys_incl; apply NoDup_filter; assumption.
Qed.

Lemma projected_float32_keys : keys projected_float32 = range 72.
Proof.
  unfold projected_float32, keys. rewrite map_map. simpl.
  exact (marker_grid_keys 6 12 150 25).
Qed.

(** X18: the guard of [_getTransformationMatrix] is the same in both
    directions of [calibrate].  Whatever was detected, the layout and the
    detected markers have as many matches taken from the layout to the
    camera as from the camera to the layout, so [_tMatrix] is left [None]
    for want of 4 matches exactly when [_inverseTMatrix] is. *)
Theorem guard_same_both_ways (detected : option (list (Z * Coord))) :
  intersection_size projected_float32 (_detectArucos detected)
  = intersection_size (_detectArucos detected) projected_float32
  /\ (intersection_size projected_float32 (_detectArucos detected) <? 4)%nat
     = (intersection_size (_detectArucos detected) projected_float32 <? 4)%nat.
Proof.
  assert (H : intersection_size projected_float32 (_detectArucos detected)
              = intersection_size (_detectArucos detected) projected_float32).
  { apply intersection_size_sym.
    - rewrite projected_float32_keys. apply range_NoDup.
    - apply detect_keys_NoDup. }
  split; [exact H | rewrite H; reflexivity].
Qed.

Lemma combine_snoc {A B : Type} (l : list A) (l' : list B) (a : A) (b : B) :
  length l = length l' ->
  combine (l ++ [a]) (l' ++ [b]) = combine l l' ++ [(a, b)].
Proof.
  revert l'. induction l as [| a0 l IH]; intros [| b0 l'] H; simpl in *;
    try discriminate; [reflexivity |].
  rewrite IH by lia. reflexivity.
Qed.

(** X19: [_getTransformationMatrix] pairs the points by id.  The two arrays
    it fits have the same length, and their entries at the same place are
    the two coordinates of one id: taken in the order of [fromCoords], every
    id that [toCoords] has too gives one pair, and no other pair is made. *)
Theorem matching_pairs_by_id (fromCoords toCoords : dict Coord) :
  length (fst (matching fromCoords toCoords))
  = length (snd (matching fromCoords toCoords))
  /\ combine (fst (matching fromCoords toCoords))
             (snd (matching fromCoords toCoords))
     = flat_map (fun entry =>
                   match dict_get toCoords (fst entry) with
                   | Some toCoord => [(snd entry, toCoord)]
                   | None => []
                   end)
                fromCoords.
Proof.
  unfold matching.
  set (step := fun (arrays : list Coord * list Coord) (entry : Z * Coord) =>
                 let '(fromArray, toArray) := arrays in
                 let '(iD, fromCoord) := entry in
                 match dict_get toCoords iD with
                 | Some toCoord => (fromArray ++ [fromCoord], toArray ++ [toCoord])
                 | None => arrays
                 end).
  set (pairs := fun entry : Z * Coord =>
                  match dict_get toCoords (fst entry) with
                  | Some toCoord => [(snd entry, toCoord)]
                  | None => []
                  end).
  assert (H : forall l fa ta,
             length fa = length ta ->
             length (fst (fold_left step l (fa, ta)))
             = length (snd (fold_left step l (fa, ta)))
             /\ combine (fst (fold_left step l (fa, ta)))
                        (snd (fold_left step l (fa, ta)))
                = combine fa ta ++ flat_map pairs l).
  { induction l as [| [k v] l IH]; intros fa ta Hlen.
    - simpl. split; [exact Hlen | symmetry; apply app_nil_r].
    - change (fold_left step ((k, v) :: l) (fa, ta))
        with (fold_left step l (step (fa, ta) (k, v))).
      change (flat_map pairs ((k, v) :: l))
        with (pairs (k, v) ++ flat_map pairs l).
      assert (Hs : step (fa, ta) (k, v)
                   = match dict_get toCoords k with
                     | Some v' => (fa ++ [v], ta ++ [v'])
                     | None => (fa, ta)
                     end) by reflexivity.
      assert (Hp : pairs (k, v)
                   = match dict_get toCoords k with
                     | Some v' => [(v, v')]
                     | None => []
                     end) by reflexivity.
      rewrite Hs, Hp. clear Hs Hp.
      destruct (dict_get toCoords k) as [v' |].
      + destruct (IH (fa ++ [v]) (ta ++ [v'])) as [H1 H2].
        { rewrite !length_app. simpl. lia. }
        split; [exact H1 |].
        rewrite H2, combine_snoc by exact Hlen.
        rewrite <- app_assoc. reflexivity.
      + apply IH, Hlen. }
  destruct (H fromCoords [] [] eq_refl) as [H1 H2].
  split; [exact H1 | exact H2].
Qed.

(** X20: [transform4Mediapipes] undoes the swap of [transform].  On a
    calibrator that has the size of the camera, when OpenCV returns the
    point [(x', y')], the result is [(x' / _cameraHeight, y' / _cameraWidth)]:
    the first coordinate OpenCV gave is divided by the height, the second by
    the width. *)
Theorem transform4Mediapipes_divides (Matrix : Type)
    (perspectiveTransform : Coord -> option Matrix -> cv2_result Coord)
    (self : Calibrator Matrix) (coords p : Coord) (cameraWidth cameraHeight : Z) :
  _cameraWidth Matrix self = Some cameraWidth ->
  _cameraHeight Matrix self = Some cameraHeight ->
  perspectiveTransform coords (_tMatrix self) = cv2_ok p ->
  transform4Mediapipes perspectiveTransform self coords
  = Returns4 (fst p / inject_Z cameraHeight, snd p / inject_Z cameraWidth).
Proof.
  intros Hw Hh Hp. unfold transform4Mediapipes, transform.
  rewrite Hp, Hw, Hh. reflexivity.
Qed.

Lemma transform4Mediapipes_divides_witness :
  transform4Mediapipes perspectiveTransform3 calibrated (700, 100)
  = Returns4 (fst ((1 * 700 + 0 * 100 + 0) / (0 * 700 + 0 * 100 + 1),
                   (0 * 700 + 1 * 100 + 0) / (0 * 700 + 0 * 100 + 1))
              / inject_Z 640,
              snd ((1 * 700 + 0 * 100 + 0) / (0 * 700 + 0 * 100 + 1),
                   (0 * 700 + 1 * 100 + 0) / (0 * 700 + 0 * 100 + 1))
              / inject_Z 480).
Proof.
  apply (transform4Mediapipes_divides Matrix3 perspectiveTransform3 calibrated
           (700, 100) _ 480%Z 640%Z); reflexivity.
Defined.

(** X21: [skipCalibration] sets the two matrices and not the size of the
    camera, so on a calibrator that was only skipped [transform4Mediapipes]
    never returns a point: when OpenCV transforms the point the division by
    the missing size raises [TypeError], and otherwise OpenCV's error comes
    through. *)
Theorem skipped_calibration_has_no_camera (Matrix : Type) (identity : Matrix)
    (perspectiveTransform : Coord -> option Matrix -> cv2_result Coord)
    (screenDimensions : Z * Z) (coords : Coord) :
  transform4Mediapipes perspectiveTransform
    (skipCalibration identity (Calibrator__init__ screenDimensions)) coords
  = match perspectiveTransform coords (Some identity) with
    | cv2_ok _ => TypeError
    | cv2_fail => Raises4 cv2_error
    end.
Proof.
  unfold transform4Mediapipes, transform. simpl.
  destruct (perspectiveTransform coords (Some identity)); reflexivity.
Qed.

Example skipped_then_normalised :
  transform4Mediapipes perspectiveTransform3
    (skipCalibration identity3 uncalibrated) (700, 100)
  = TypeError.
Proof. reflexivity. Qed.
